(** * Chat front end of ai-chat-game-vertex: model and properties

    The development embeds the TypeScript sources of the chat front end
    (types/index.ts, contexts/ChatContext.tsx, lib/api.ts,
    components/MessageInput.tsx, components/CharacterImageDisplay.tsx)
    as Rocq functions and states the properties of the specification about
    them.  The back end (conversation service, trigger policy, affinity
    store) is not part of the sources; the one definition that concerns it
    is modelled from the specification and marked as such. *)

From Stdlib Require Import ZArith NArith List Bool String Ascii Lia.
Import ListNotations.

Set Implicit Arguments.

Local Open Scope Z_scope.

(* ================================================================== *)
(** ** JavaScript values used by the sources *)
(* ================================================================== *)

Module JS.

(** A JavaScript string is a sequence of UTF-16 code units. *)
Definition code_unit := N.
Definition jstring := list code_unit.

(** ASCII literals of the sources. *)
Definition lit (s : string) : jstring :=
  map N_of_ascii (list_ascii_of_string s).

Definition jstring_eqb (a b : jstring) : bool :=
  if list_eq_dec N.eq_dec a b then true else false.

(** [x?: T] : the property is absent ([undefined]) or holds a value. *)
Inductive optional (A : Type) : Type :=
| undefined : optional A
| defined (a : A) : optional A.
Arguments undefined {A}.

(** [T | null]. *)
Inductive nullable (A : Type) : Type :=
| null : nullable A
| nonnull (a : A) : nullable A.
Arguments null {A}.

(** [x ?? d] where [x : T | undefined] and [d : T]. *)
Definition coalesce {A} (x : optional A) (d : A) : A :=
  match x with
  | undefined => d
  | defined a => a
  end.

(** [x ?? undefined] where [x : T | null]: null becomes undefined. *)
Definition coalesce_undefined {A} (x : nullable A) : optional A :=
  match x with
  | null => undefined
  | nonnull a => defined a
  end.

(** Truthiness of a string: every string but the empty one. *)
Definition truthy (s : jstring) : bool :=
  match s with
  | [] => false
  | _ :: _ => true
  end.

(** WhiteSpace and LineTerminator code points of ECMAScript, the
    characters [String.prototype.trim] strips. *)
Definition isWhiteSpace (c : code_unit) : bool :=
  (  (c =? 0x0009) || (c =? 0x000A) || (c =? 0x000B) || (c =? 0x000C)
  || (c =? 0x000D) || (c =? 0x0020) || (c =? 0x00A0) || (c =? 0x1680)
  || ((0x2000 <=? c) && (c <=? 0x200A))
  || (c =? 0x2028) || (c =? 0x2029) || (c =? 0x202F) || (c =? 0x205F)
  || (c =? 0x3000) || (c =? 0xFEFF))%N.

Fixpoint trimStart (s : jstring) : jstring :=
  match s with
  | [] => []
  | c :: r => if isWhiteSpace c then trimStart r else s
  end.

Definition trimEnd (s : jstring) : jstring :=
  rev (trimStart (rev s)).

(** [s.trim()] *)
Definition trim (s : jstring) : jstring :=
  trimEnd (trimStart s).

(** [s.startsWith(p)] *)
Fixpoint startsWith (s p : jstring) : bool :=
  match p, s with
  | [], _ => true
  | _ :: _, [] => false
  | a :: p', b :: s' => (a =? b)%N && startsWith s' p'
  end.

End JS.

Import JS.

(* ================================================================== *)
(** ** types/index.ts *)
(* ================================================================== *)

Inductive Emotion := happy | sad | neutral | surprised | thoughtful.

Inductive Scene := indoor | outdoor | cafe | park.

Inductive Role := user | agent.

Module ConversationRequest.
Record t := mk {
  user_id : jstring;
  message : jstring;
  session_id : optional jstring
}.
End ConversationRequest.

Module ConversationResponse.
Record t := mk {
  session_id : jstring;
  dialogue : jstring;
  narration : jstring;
  emotion : Emotion;
  scene : Scene;
  image_url : optional jstring;
  affinity_level : Z;
  timestamp : jstring
}.
End ConversationResponse.

Module Message.
Record t := mk {
  role : Role;
  dialogue : jstring;
  narration : optional jstring;
  timestamp : jstring
}.
End Message.

Record ChatState := mkChatState {
  messages : list Message.t;
  currentImageUrl : jstring;
  isLoading : bool;
  isGeneratingImage : bool;
  affinityLevel : Z;
  sessionId : nullable jstring
}.

(* ================================================================== *)
(** ** contexts/ChatContext.tsx *)
(* ================================================================== *)

(** The four actions of [ChatAction]; [OTHER_ACTION] stands for an object
    whose [type] is none of them, which only an untyped caller can pass
    and which the [default] branch of the reducer receives. *)
Inductive ChatAction :=
| SEND_MESSAGE_START (userMessage : jstring)
| SEND_MESSAGE_SUCCESS (response : ConversationResponse.t)
| SEND_MESSAGE_ERROR
| CLEAR_HISTORY
| OTHER_ACTION.

Definition initialState : ChatState := {|
  messages := [];
  currentImageUrl := [];
  isLoading := false;
  isGeneratingImage := false;
  affinityLevel := 0;
  sessionId := null
|}.

(** [chatReducer].  The reducer reads the clock in its first branch
    ([new Date().toISOString()]); [now] is the reading the call gets. *)
Definition chatReducer (now : jstring) (state : ChatState)
    (action : ChatAction) : ChatState :=
  match action with
  | SEND_MESSAGE_START userMessage =>
      {| messages := messages state ++
           [ {| Message.role := user;
                Message.dialogue := userMessage;
                Message.narration := undefined;
                Message.timestamp := now |} ];
         currentImageUrl := currentImageUrl state;
         isLoading := true;
         isGeneratingImage := true;
         affinityLevel := affinityLevel state;
         sessionId := sessionId state |}
  | SEND_MESSAGE_SUCCESS response =>
      {| messages := messages state ++
           [ {| Message.role := agent;
                Message.dialogue := ConversationResponse.dialogue response;
                Message.narration :=
                  defined (ConversationResponse.narration response);
                Message.timestamp :=
                  ConversationResponse.timestamp response |} ];
         currentImageUrl :=
           coalesce (ConversationResponse.image_url response)
                    (currentImageUrl state);
         isLoading := false;
         isGeneratingImage := false;
         affinityLevel := ConversationResponse.affinity_level response;
         sessionId := nonnull (ConversationResponse.session_id response) |}
  | SEND_MESSAGE_ERROR =>
      {| messages := messages state;
         currentImageUrl := currentImageUrl state;
         isLoading := false;
         isGeneratingImage := false;
         affinityLevel := affinityLevel state;
         sessionId := sessionId state |}
  | CLEAR_HISTORY => initialState
  | OTHER_ACTION => state
  end.

(** The store of [useReducer]: the reducer applied to each dispatched
    action in turn, every call with its own clock reading. *)
Fixpoint dispatch_all (state : ChatState)
    (dispatched : list (jstring * ChatAction)) : ChatState :=
  match dispatched with
  | [] => state
  | (now, action) :: rest => dispatch_all (chatReducer now state action) rest
  end.

(* ================================================================== *)
(** ** lib/api.ts *)
(* ================================================================== *)

Module Api.

(** What [response.json()] settles to: the parsed body, taken at the
    type the source casts it to, or a rejection (the body is not JSON). *)
Inductive json_result :=
| JsonParsed (body : ConversationResponse.t)
| JsonRejected.

(** The part of a fetch [Response] the function reads. *)
Record Response := mkResponse {
  status : Z;
  json : json_result
}.

(** [response.ok], which the Fetch API defines as a status in 200..299. *)
Definition ok (response : Response) : bool :=
  (200 <=? status response) && (status response <=? 299).

(** What [await fetch(...)] settles to: a response of any status, or a
    rejection when no response arrives. *)
Inductive fetch_result :=
| FetchRejected
| FetchResolved (response : Response).

Inductive Error :=
| ApiError (status : Z)      (* new Error(`API error: ${response.status}`) *)
| FetchError                 (* the rejection of fetch, not caught *)
| JsonError.                 (* the rejection of response.json(), not caught *)

(** How the promise of an async function settles. *)
Inductive outcome (A : Type) :=
| Returned (a : A)
| Thrown (e : Error).
Arguments Thrown {A}.

Definition sendConversationMessage
    (fetch : ConversationRequest.t -> fetch_result)
    (request : ConversationRequest.t) : outcome ConversationResponse.t :=
  match fetch request with
  | FetchRejected => Thrown FetchError
  | FetchResolved response =>
      if negb (ok response) then Thrown (ApiError (status response))
      else match json response with
           | JsonParsed body => Returned body
           | JsonRejected => Thrown JsonError
           end
  end.

Definition throws {A} (o : outcome A) : Prop :=
  exists e, o = Thrown e.

End Api.

(* ================================================================== *)
(** ** contexts/ChatContext.tsx: the provider *)
(* ================================================================== *)

(** The request [sendMessage] builds from the state of the render it was
    created in. *)
Definition sendMessage_request (state : ChatState) (message : jstring)
    : ConversationRequest.t :=
  {| ConversationRequest.user_id := lit "demo-user";
     ConversationRequest.message := message;
     ConversationRequest.session_id := coalesce_undefined (sessionId state) |}.

(** [sendMessage]: the actions it dispatches, in order. *)
Definition sendMessage (fetch : ConversationRequest.t -> Api.fetch_result)
    (state : ChatState) (message : jstring) : list ChatAction :=
  SEND_MESSAGE_START message ::
  match Api.sendConversationMessage fetch (sendMessage_request state message) with
  | Api.Returned response => [SEND_MESSAGE_SUCCESS response]
  | Api.Thrown _ => [SEND_MESSAGE_ERROR]
  end.

(** [clearHistory] *)
Definition clearHistory : list ChatAction := [CLEAR_HISTORY].

(** One complete turn of the provider: the state rendered after both
    dispatches of [sendMessage]; [t_start] and [t_end] are the clock
    readings of the two reducer calls. *)
Definition turn (fetch : ConversationRequest.t -> Api.fetch_result)
    (t_start t_end : jstring) (state : ChatState) (message : jstring)
    : ChatState :=
  dispatch_all state
    (combine [t_start; t_end] (sendMessage fetch state message)).

(* ================================================================== *)
(** ** components/MessageInput.tsx *)
(* ================================================================== *)

Module MessageInput.

(** The component holds one piece of state, the text of the input
    ([message]); its props are [onSend] and [isLoading].  A handler
    returns the arguments of the [onSend] calls it made, in order, and
    the text the input holds afterwards. *)
Record result := mkResult {
  onSend_calls : list jstring;
  message_after : jstring
}.

Definition handleSend (loading : bool) (message : jstring) : result :=
  let trimmed := trim message in
  if negb (truthy trimmed) || loading
  then {| onSend_calls := []; message_after := message |}
  else {| onSend_calls := [trimmed]; message_after := [] |}.

(** [handleKeyDown]: [key] is [e.key], [shiftKey] is [e.shiftKey]. *)
Definition handleKeyDown (loading : bool) (message : jstring)
    (key : jstring) (shiftKey : bool) : result :=
  if jstring_eqb key (lit "Enter") && negb shiftKey
  then handleSend loading message
  else {| onSend_calls := []; message_after := message |}.

(** The [disabled] attribute of the send button. *)
Definition buttonDisabled (loading : bool) (message : jstring) : bool :=
  loading || negb (truthy (trim message)).

(** A click on the send button: a disabled button fires no [onClick]. *)
Definition handleClick (loading : bool) (message : jstring) : result :=
  if buttonDisabled loading message
  then {| onSend_calls := []; message_after := message |}
  else handleSend loading message.

(** [onChange]: [setMessage(e.target.value)]. *)
Definition handleChange (value : jstring) : result :=
  {| onSend_calls := []; message_after := value |}.

End MessageInput.

(* ================================================================== *)
(** ** components/CharacterImageDisplay.tsx *)
(* ================================================================== *)

Module CharacterImageDisplay.

(** The elements the component renders. *)
#[local] Unset Elimination Schemes.
Inductive node :=
| Card (children : list node)
| CardContent (children : list node)
| Skeleton
| Div (children : list node)
| Img (src alt : jstring)
| Span (text : jstring).
#[local] Set Elimination Schemes.

(** [queryByRole('img')] finds an element. *)
Fixpoint has_img (n : node) : bool :=
  match n with
  | Card cs | CardContent cs | Div cs => existsb has_img cs
  | Img _ _ => true
  | Skeleton | Span _ => false
  end.

(** [querySelector('[data-slot="skeleton"]')] finds an element. *)
Fixpoint has_skeleton (n : node) : bool :=
  match n with
  | Card cs | CardContent cs | Div cs => existsb has_skeleton cs
  | Skeleton => true
  | Img _ _ | Span _ => false
  end.

(** [queryByText(t)] finds an element. *)
Fixpoint has_text (t : jstring) (n : node) : bool :=
  match n with
  | Card cs | CardContent cs | Div cs => existsb (has_text t) cs
  | Span text => jstring_eqb text t
  | Skeleton | Img _ _ => false
  end.

(** The placeholder text of the sources, eight katakana and kanji
    characters, as code units. *)
Definition placeholderText : jstring :=
  [0x30AD; 0x30E3; 0x30E9; 0x30AF; 0x30BF; 0x30FC; 0x753B; 0x50CF]%N.

(** [process.env.NEXT_PUBLIC_API_URL ?? 'http://localhost:8000'] *)
Definition API_BASE_URL (env : optional jstring) : jstring :=
  coalesce env (lit "http://localhost:8000").

Definition resolveImageUrl (env : optional jstring) (imagePath : jstring)
    : jstring :=
  if startsWith imagePath (lit "http") then imagePath
  else API_BASE_URL env ++ imagePath.

(** The component of the file: the skeleton is chosen only when there is
    no image to show. *)
Definition CharacterImageDisplay (env : optional jstring)
    (imageUrl : jstring) (isGenerating : bool) : node :=
  Card [ CardContent [
    if isGenerating && negb (truthy imageUrl) then Skeleton
    else if truthy imageUrl then
      Div [ Img (resolveImageUrl env imageUrl) (lit "Character") ]
    else Div [ Span placeholderText ] ] ].

(** The second component of the same name in the file: the skeleton is
    chosen whenever an image is being generated, and the image source is
    used as it is. *)
Definition CharacterImageDisplay_second (imageUrl : jstring)
    (isGenerating : bool) : node :=
  Card [ CardContent [
    if isGenerating then Skeleton
    else if truthy imageUrl then Div [ Img imageUrl (lit "Character") ]
    else Div [ Span placeholderText ] ] ].

End CharacterImageDisplay.

(** components/ChatPage.tsx: how the page feeds the state to the
    components. *)
Definition ChatPage_image (env : optional jstring) (state : ChatState)
    : CharacterImageDisplay.node :=
  CharacterImageDisplay.CharacterImageDisplay env
    (currentImageUrl state) (isGeneratingImage state).

(* ================================================================== *)
(** ** The reducer on a store of objects *)
(* ================================================================== *)

(** The same reducer with the objects it reads and creates made explicit:
    a state is an object whose [messages] property refers to an array, an
    object spread and an array literal allocate, and nothing else writes
    to the store.  Messages are kept as values inside their array. *)
Module Heap.

Definition ref := nat.

Record StateObject := mkStateObject {
  messagesRef : ref;
  o_currentImageUrl : jstring;
  o_isLoading : bool;
  o_isGeneratingImage : bool;
  o_affinityLevel : Z;
  o_sessionId : nullable jstring
}.

Inductive cell :=
| ArrayCell (elements : list Message.t)
| ObjectCell (o : StateObject).

Definition heap := list cell.

Definition alloc (h : heap) (c : cell) : heap * ref :=
  (h ++ [c], List.length h).

Definition read_array (h : heap) (r : ref) : option (list Message.t) :=
  match nth_error h r with
  | Some (ArrayCell l) => Some l
  | _ => None
  end.

Definition read_object (h : heap) (r : ref) : option StateObject :=
  match nth_error h r with
  | Some (ObjectCell o) => Some o
  | _ => None
  end.

(** The [ChatState] value a reference denotes. *)
Definition read_state (h : heap) (r : ref) : option ChatState :=
  match read_object h r with
  | Some o =>
      match read_array h (messagesRef o) with
      | Some l =>
          Some {| messages := l;
                  currentImageUrl := o_currentImageUrl o;
                  isLoading := o_isLoading o;
                  isGeneratingImage := o_isGeneratingImage o;
                  affinityLevel := o_affinityLevel o;
                  sessionId := o_sessionId o |}
      | None => None
      end
  | None => None
  end.

(** [chatReducer]: [initial] refers to the module-level [initialState]
    object, [state] to the argument.  The result is the store after the
    call and the reference returned; [None] only for a dangling
    reference, which JavaScript does not have. *)
Definition chatReducer (now : jstring) (initial : ref) (h : heap)
    (state : ref) (action : ChatAction) : option (heap * ref) :=
  match action with
  | SEND_MESSAGE_START userMessage =>
      match read_object h state with
      | Some o =>
          match read_array h (messagesRef o) with
          | Some l =>
              let (h1, a) :=
                alloc h (ArrayCell (l ++
                  [ {| Message.role := user;
                       Message.dialogue := userMessage;
                       Message.narration := undefined;
                       Message.timestamp := now |} ])) in
              Some (alloc h1 (ObjectCell
                {| messagesRef := a;
                   o_currentImageUrl := o_currentImageUrl o;
                   o_isLoading := true;
                   o_isGeneratingImage := true;
                   o_affinityLevel := o_affinityLevel o;
                   o_sessionId := o_sessionId o |}))
          | None => None
          end
      | None => None
      end
  | SEND_MESSAGE_SUCCESS response =>
      match read_object h state with
      | Some o =>
          match read_array h (messagesRef o) with
          | Some l =>
              let (h1, a) :=
                alloc h (ArrayCell (l ++
                  [ {| Message.role := agent;
                       Message.dialogue :=
                         ConversationResponse.dialogue response;
                       Message.narration :=
                         defined (ConversationResponse.narration response);
                       Message.timestamp :=
                         ConversationResponse.timestamp response |} ])) in
              Some (alloc h1 (ObjectCell
                {| messagesRef := a;
                   o_currentImageUrl :=
                     coalesce (ConversationResponse.image_url response)
                              (o_currentImageUrl o);
                   o_isLoading := false;
                   o_isGeneratingImage := false;
                   o_affinityLevel :=
                     ConversationResponse.affinity_level response;
                   o_sessionId :=
                     nonnull (ConversationResponse.session_id response) |}))
          | None => None
          end
      | None => None
      end
  | SEND_MESSAGE_ERROR =>
      match read_object h state with
      | Some o =>
          Some (alloc h (ObjectCell
            {| messagesRef := messagesRef o;
               o_currentImageUrl := o_currentImageUrl o;
               o_isLoading := false;
               o_isGeneratingImage := false;
               o_affinityLevel := o_affinityLevel o;
               o_sessionId := o_sessionId o |}))
      | None => None
      end
  | CLEAR_HISTORY =>
      match read_object h initial with
      | Some o => Some (alloc h (ObjectCell o))
      | None => None
      end
  | OTHER_ACTION => Some (h, state)
  end.

End Heap.

(* ================================================================== *)
(** ** The trigger policy of the back end *)
(* ================================================================== *)

Module TriggerPolicy.

(** Modelled from the spec: the emotions of the back end's structured
    model output; the back end is not among the sources, the values are
    those the design document lists. *)
Inductive Emotion :=
| happy | sad | neutral | surprised | thoughtful
| embarrassed | excited | angry.

(** Modelled from the spec: the scenes of the back end's structured
    model output, as the design document lists them. *)
Inductive Scene := indoor | outdoor | cafe | park | school | home.

(** Modelled from the spec: the emotion categories (positive, neutral,
    negative, expressive). *)
Inductive Category :=
| cat_positive | cat_neutral | cat_negative | cat_expressive.

(** Modelled from the spec: [category], absent from the sources; every
    emotion maps to exactly one category, grouped as the design document
    groups them. *)
Definition category (e : Emotion) : Category :=
  match e with
  | happy | excited => cat_positive
  | neutral | thoughtful => cat_neutral
  | sad | angry => cat_negative
  | surprised | embarrassed => cat_expressive
  end.

(** Equality of categories and of scenes, as booleans. *)
Definition category_eqb (a b : Category) : bool :=
  match a, b with
  | cat_positive, cat_positive | cat_neutral, cat_neutral
  | cat_negative, cat_negative | cat_expressive, cat_expressive => true
  | _, _ => false
  end.

Definition scene_eqb (a b : Scene) : bool :=
  match a, b with
  | indoor, indoor | outdoor, outdoor | cafe, cafe
  | park, park | school, school | home, home => true
  | _, _ => false
  end.

(** Modelled from the spec: the state of one turn the policy compares,
    with the model's own important-event flag. *)
Record TurnState := mkTurnState {
  emotion : Emotion;
  scene : Scene;
  affinity : Z;
  importantEvent : bool
}.

(** Modelled from the spec: the two thresholds of the policy. *)
Record Thresholds := mkThresholds {
  AFFINITY_IMAGE_THRESHOLD : Z;
  AFFINITY_MEMORY_THRESHOLD : Z
}.

(** Modelled from the spec: both thresholds default to 10. *)
Definition defaultThresholds : Thresholds :=
  {| AFFINITY_IMAGE_THRESHOLD := 10; AFFINITY_MEMORY_THRESHOLD := 10 |}.

(** Modelled from the spec: the result of [evaluate]. *)
Record Decision := mkDecision {
  regenerateImage : bool;
  writeMemory : bool
}.

(** Modelled from the spec: [evaluate(prev, curr)] of the Trigger Policy,
    absent from the sources.  The image is regenerated when the emotion
    category changed, else when the scene changed, else when the
    affinity moved by the image threshold or more; memory is written
    when the affinity moved by the memory threshold or more, or the
    model flagged the turn as important. *)
Definition evaluate (cfg : Thresholds) (prev curr : TurnState) : Decision :=
  let delta := Z.abs (affinity curr - affinity prev) in
  {| regenerateImage :=
       if negb (category_eqb (category (emotion curr))
                             (category (emotion prev))) then true
       else if negb (scene_eqb (scene curr) (scene prev)) then true
       else AFFINITY_IMAGE_THRESHOLD cfg <=? delta;
     writeMemory :=
       (AFFINITY_MEMORY_THRESHOLD cfg <=? delta) || importantEvent curr |}.

End TriggerPolicy.

(* ================================================================== *)
(** ** Values of the test suites *)
(* ================================================================== *)

(** [mockResponse] of chatReducer.test.ts. *)
Definition mockResponse : ConversationResponse.t :=
  {| ConversationResponse.session_id := lit "session-abc";
     ConversationResponse.dialogue := lit "Hi there!";
     ConversationResponse.narration := lit "She smiled warmly.";
     ConversationResponse.emotion := happy;
     ConversationResponse.scene := cafe;
     ConversationResponse.image_url := defined (lit "/images/happy_cafe.png");
     ConversationResponse.affinity_level := 15;
     ConversationResponse.timestamp := lit "2026-02-23T10:00:00Z" |}.

(** [{ ...mockResponse, image_url: undefined }] *)
Definition responseNoImage : ConversationResponse.t :=
  {| ConversationResponse.session_id := ConversationResponse.session_id mockResponse;
     ConversationResponse.dialogue := ConversationResponse.dialogue mockResponse;
     ConversationResponse.narration := ConversationResponse.narration mockResponse;
     ConversationResponse.emotion := ConversationResponse.emotion mockResponse;
     ConversationResponse.scene := ConversationResponse.scene mockResponse;
     ConversationResponse.image_url := undefined;
     ConversationResponse.affinity_level := ConversationResponse.affinity_level mockResponse;
     ConversationResponse.timestamp := ConversationResponse.timestamp mockResponse |}.

(** [{ ...mockResponse, affinity_level: a }] *)
Definition responseWithAffinity (a : Z) : ConversationResponse.t :=
  {| ConversationResponse.session_id := ConversationResponse.session_id mockResponse;
     ConversationResponse.dialogue := ConversationResponse.dialogue mockResponse;
     ConversationResponse.narration := ConversationResponse.narration mockResponse;
     ConversationResponse.emotion := ConversationResponse.emotion mockResponse;
     ConversationResponse.scene := ConversationResponse.scene mockResponse;
     ConversationResponse.image_url := ConversationResponse.image_url mockResponse;
     ConversationResponse.affinity_level := a;
     ConversationResponse.timestamp := ConversationResponse.timestamp mockResponse |}.

(** Two readings of the clock, one second apart. *)
Definition clock1 : jstring := lit "2026-02-23T10:00:00.000Z".
Definition clock2 : jstring := lit "2026-02-23T10:00:01.000Z".

(** [stateWithUserMsg] and [stateWithImage] of chatReducer.test.ts. *)
Definition stateWithUserMsg : ChatState :=
  chatReducer clock1 initialState (SEND_MESSAGE_START (lit "Hello")).

Definition stateWithImage : ChatState :=
  {| messages := messages stateWithUserMsg;
     currentImageUrl := lit "/images/prev.png";
     isLoading := isLoading stateWithUserMsg;
     isGeneratingImage := isGeneratingImage stateWithUserMsg;
     affinityLevel := affinityLevel stateWithUserMsg;
     sessionId := sessionId stateWithUserMsg |}.

(** The responses of an action are within the affinity range. *)
Definition response_in_range (action : ChatAction) : Prop :=
  match action with
  | SEND_MESSAGE_SUCCESS response =>
      0 <= ConversationResponse.affinity_level response <= 100
  | _ => True
  end.

(** The branch of the reducer an action selects reads the clock. *)
Definition reads_clock (action : ChatAction) : bool :=
  match action with
  | SEND_MESSAGE_START _ => true
  | _ => false
  end.

(** A message without its timestamp. *)
Definition untimed (m : Message.t) : Role * jstring * optional jstring :=
  (Message.role m, Message.dialogue m, Message.narration m).

(** A store holding the [initialState] object and its empty array. *)
Definition initialHeap : Heap.heap :=
  [ Heap.ArrayCell [];
    Heap.ObjectCell
      {| Heap.messagesRef := 0%nat;
         Heap.o_currentImageUrl := [];
         Heap.o_isLoading := false;
         Heap.o_isGeneratingImage := false;
         Heap.o_affinityLevel := 0;
         Heap.o_sessionId := null |} ].

(** A sequence of turns of the provider, one after the other, each with
    the server it talks to, the clock readings of its two dispatches and
    the message sent. *)
Record turn_input := mkTurnInput {
  ti_fetch : ConversationRequest.t -> Api.fetch_result;
  ti_start : jstring;
  ti_end : jstring;
  ti_message : jstring
}.

Definition run_turn (state : ChatState) (i : turn_input) : ChatState :=
  turn (ti_fetch i) (ti_start i) (ti_end i) state (ti_message i).

Fixpoint run_turns (state : ChatState) (inputs : list turn_input)
    : ChatState :=
  match inputs with
  | [] => state
  | i :: rest => run_turns (run_turn state i) rest
  end.

(** No turn of the sequence gets a response. *)
Fixpoint all_fail (state : ChatState) (inputs : list turn_input) : bool :=
  match inputs with
  | [] => true
  | i :: rest =>
      match Api.sendConversationMessage (ti_fetch i)
              (sendMessage_request state (ti_message i)) with
      | Api.Thrown _ => all_fail (run_turn state i) rest
      | Api.Returned _ => false
      end
  end.

(** Servers of the tests: one that answers [mockResponse] with status 200,
    one that cannot be reached, one that answers 503, and one that answers
    200 with a body that is not JSON. *)
Definition okResponse : Api.Response :=
  {| Api.status := 200; Api.json := Api.JsonParsed mockResponse |}.

Definition unavailableResponse : Api.Response :=
  {| Api.status := 503; Api.json := Api.JsonRejected |}.

Definition okButNotJson : Api.Response :=
  {| Api.status := 200; Api.json := Api.JsonRejected |}.

Definition serverOk (_ : ConversationRequest.t) : Api.fetch_result :=
  Api.FetchResolved okResponse.

Definition serverDown (_ : ConversationRequest.t) : Api.fetch_result :=
  Api.FetchRejected.

Definition serverUnavailable (_ : ConversationRequest.t) : Api.fetch_result :=
  Api.FetchResolved unavailableResponse.

Definition serverNotJson (_ : ConversationRequest.t) : Api.fetch_result :=
  Api.FetchResolved okButNotJson.

Definition firstRequest : ConversationRequest.t :=
  sendMessage_request initialState (lit "Hello").

(* ================================================================== *)
(** ** components/ConversationLog.tsx *)
(* ================================================================== *)

Module ConversationLog.

(** One rendered message: the wrapper [div] with its [key], [data-role]
    and class, the bubble with its class, the dialogue paragraph and the
    narration paragraph when there is one. *)
Record item := mkItem {
  key : nat;
  data_role : Role;
  wrapperClass : jstring;
  bubbleClass : jstring;
  dialogueText : jstring;
  narrationText : optional jstring
}.

Definition isUser (r : Role) : bool :=
  match r with
  | user => true
  | agent => false
  end.

(** The body of the [map] callback.  [message.narration && <p>...</p>]
    renders the paragraph only for a narration that is present and not
    the empty string. *)
Definition renderMessage (message : Message.t) (index : nat) : item :=
  {| key := index;
     data_role := Message.role message;
     wrapperClass :=
       lit "flex flex-col " ++
       (if isUser (Message.role message)
        then lit "items-end" else lit "items-start");
     bubbleClass :=
       lit "max-w-[80%] rounded-lg px-4 py-2 " ++
       (if isUser (Message.role message)
        then lit "bg-primary text-primary-foreground" else lit "bg-muted");
     dialogueText := Message.dialogue message;
     narrationText :=
       match Message.narration message with
       | defined n => if truthy n then defined n else undefined
       | undefined => undefined
       end |}.

(** [messages.map((message, index) => ...)] from a starting index. *)
Fixpoint mapFrom (index : nat) (messages : list Message.t) : list item :=
  match messages with
  | [] => []
  | message :: rest => renderMessage message index :: mapFrom (S index) rest
  end.

(** The items inside the scroll area, before the [bottomRef] anchor. *)
Definition ConversationLog (messages : list Message.t) : list item :=
  mapFrom 0 messages.

End ConversationLog.

(** components/ChatPage.tsx: the log and the input as the page feeds
    them from the state. *)
Definition ChatPage_log (state : ChatState) : list ConversationLog.item :=
  ConversationLog.ConversationLog (messages state).

Definition ChatPage_click (state : ChatState) (typed : jstring)
    : MessageInput.result :=
  MessageInput.handleClick (isLoading state) typed.

Definition ChatPage_keyDown (state : ChatState) (typed key : jstring)
    (shiftKey : bool) : MessageInput.result :=
  MessageInput.handleKeyDown (isLoading state) typed key shiftKey.

(* ================================================================== *)
(** ** Notions used in the statements *)
(* ================================================================== *)

Definition isAgentMessage (m : Message.t) : bool :=
  match Message.role m with
  | agent => true
  | user => false
  end.

Definition isClear (action : ChatAction) : bool :=
  match action with
  | CLEAR_HISTORY => true
  | _ => false
  end.

(** In a list of roles every agent entry comes directly after a user
    entry; [after_user] tells whether the entry before the list is one. *)
Fixpoint replies_follow (after_user : bool) (roles : list Role) : bool :=
  match roles with
  | [] => true
  | user :: rest => replies_follow true rest
  | agent :: rest => after_user && replies_follow false rest
  end.

(** The reducer of the store of objects, applied to each dispatched
    action in turn. *)
Fixpoint heap_dispatch_all (initial : Heap.ref) (h : Heap.heap)
    (state : Heap.ref) (dispatched : list (jstring * ChatAction))
    : option (Heap.heap * Heap.ref) :=
  match dispatched with
  | [] => Some (h, state)
  | (now, action) :: rest =>
      match Heap.chatReducer now initial h state action with
      | Some (h', state') => heap_dispatch_all initial h' state' rest
      | None => None
      end
  end.

(** What holds of a state with and without a session. *)
Definition session_invariant (state : ChatState) : Prop :=
  match sessionId state with
  | null =>
      existsb isAgentMessage (messages state) = false /\
      affinityLevel state = 0 /\
      currentImageUrl state = []
  | nonnull _ => existsb isAgentMessage (messages state) = true
  end.

(** The three things the image card can show. *)
Definition shows (view : CharacterImageDisplay.node) : bool * bool * bool :=
  (CharacterImageDisplay.has_skeleton view,
   CharacterImageDisplay.has_img view,
   CharacterImageDisplay.has_text CharacterImageDisplay.placeholderText view).

(** [userMessage] and [agentMessage] of ConversationLog.test.tsx. *)
Definition userMessage : Message.t :=
  {| Message.role := user;
     Message.dialogue := lit "Hello there!";
     Message.narration := undefined;
     Message.timestamp := lit "2026-02-23T10:00:00Z" |}.

Definition agentMessage : Message.t :=
  {| Message.role := agent;
     Message.dialogue := lit "Nice to meet you!";
     Message.narration := defined (lit "She smiled warmly.");
     Message.timestamp := lit "2026-02-23T10:01:00Z" |}.

(* ================================================================== *)
(** ** Properties of the reducer *)
(* ================================================================== *)

(** The reducer on the values of its test suite. *)
Example reducer_keeps_previous_image :
  currentImageUrl
    (chatReducer clock2 stateWithImage (SEND_MESSAGE_SUCCESS responseNoImage))
  = lit "/images/prev.png".
Proof. reflexivity. Qed.

Example reducer_takes_new_image :
  currentImageUrl
    (chatReducer clock2 stateWithUserMsg (SEND_MESSAGE_SUCCESS mockResponse))
  = lit "/images/happy_cafe.png".
Proof. reflexivity. Qed.

Example reducer_clear_history :
  forall now state, chatReducer now state CLEAR_HISTORY = initialState.
Proof. reflexivity. Qed.

(** C1: on SEND_MESSAGE_SUCCESS the image reference of the state is kept
    unchanged when the response carries no image_url, and becomes the
    response's image_url when it carries one. *)
Theorem success_image_reference :
  forall now state response,
    (ConversationResponse.image_url response = undefined ->
       currentImageUrl (chatReducer now state (SEND_MESSAGE_SUCCESS response))
       = currentImageUrl state) /\
    (forall url, ConversationResponse.image_url response = defined url ->
       currentImageUrl (chatReducer now state (SEND_MESSAGE_SUCCESS response))
       = url).
Proof.
  intros now state response; simpl.
  split.
  - intros Habsent. rewrite Habsent. reflexivity.
  - intros url Hurl. rewrite Hurl. reflexivity.
Qed.

Lemma success_image_reference_witness :
  currentImageUrl
    (chatReducer clock2 stateWithImage (SEND_MESSAGE_SUCCESS responseNoImage))
  = currentImageUrl stateWithImage /\
  currentImageUrl
    (chatReducer clock2 stateWithImage (SEND_MESSAGE_SUCCESS mockResponse))
  = lit "/images/happy_cafe.png".
Proof.
  split.
  - apply (proj1 (success_image_reference clock2 stateWithImage responseNoImage)).
    reflexivity.
  - apply (proj2 (success_image_reference clock2 stateWithImage mockResponse)).
    reflexivity.
Defined.

(** C5: on SEND_MESSAGE_SUCCESS the resulting affinityLevel is the
    response's affinity_level, the resulting sessionId is the response's
    session_id, and the messages are the previous ones followed by exactly
    one agent message with the response's dialogue, narration and
    timestamp. *)
Theorem success_fields :
  forall now state response,
    let next := chatReducer now state (SEND_MESSAGE_SUCCESS response) in
    affinityLevel next = ConversationResponse.affinity_level response /\
    sessionId next = nonnull (ConversationResponse.session_id response) /\
    messages next =
      messages state ++
      [ {| Message.role := agent;
           Message.dialogue := ConversationResponse.dialogue response;
           Message.narration :=
             defined (ConversationResponse.narration response);
           Message.timestamp := ConversationResponse.timestamp response |} ] /\
    List.length (messages next) = S (List.length (messages state)).
Proof.
  intros now state response next; subst next; simpl.
  repeat split.
  rewrite length_app; simpl. lia.
Qed.

(** C9: SEND_MESSAGE_ERROR sets isLoading and isGeneratingImage to false
    and leaves messages, currentImageUrl, affinityLevel and sessionId as
    they were. *)
Theorem error_frame :
  forall now state,
    let next := chatReducer now state SEND_MESSAGE_ERROR in
    isLoading next = false /\
    isGeneratingImage next = false /\
    messages next = messages state /\
    currentImageUrl next = currentImageUrl state /\
    affinityLevel next = affinityLevel state /\
    sessionId next = sessionId state.
Proof.
  intros now state next; subst next; simpl.
  repeat split.
Qed.

(** The reducer does not clamp: 150 is stored as 150 and -20 as -20, so
    the stored affinity is not always within 0..100. *)
Lemma affinity_not_clamped :
  affinityLevel
    (chatReducer clock2 stateWithUserMsg
       (SEND_MESSAGE_SUCCESS (responseWithAffinity 150))) = 150 /\
  affinityLevel
    (chatReducer clock2 stateWithUserMsg
       (SEND_MESSAGE_SUCCESS (responseWithAffinity (-20)))) = -20 /\
  ~ (forall now state action,
       0 <= affinityLevel (chatReducer now state action) <= 100).
Proof.
  split; [reflexivity | split; [reflexivity | ]].
  intros Hall.
  specialize (Hall clock2 stateWithUserMsg
                (SEND_MESSAGE_SUCCESS (responseWithAffinity 150))).
  simpl in Hall. lia.
Qed.

Lemma reducer_affinity_step :
  forall now state action,
    0 <= affinityLevel state <= 100 ->
    response_in_range action ->
    0 <= affinityLevel (chatReducer now state action) <= 100.
Proof.
  intros now state action Hstate Haction.
  destruct action; simpl in *; lia.
Qed.

(** C4 (amended): the reducer stores the affinity_level of a response as
    it is, without clamping; the stored affinity starts at 0 and stays
    within 0..100 through any sequence of dispatched actions whose
    responses have an affinity_level within 0..100. *)
Theorem affinity_range_preserved :
  (forall now state response,
     affinityLevel (chatReducer now state (SEND_MESSAGE_SUCCESS response))
     = ConversationResponse.affinity_level response) /\
  affinityLevel initialState = 0 /\
  (forall dispatched state,
     0 <= affinityLevel state <= 100 ->
     Forall (fun d => response_in_range (snd d)) dispatched ->
     0 <= affinityLevel (dispatch_all state dispatched) <= 100).
Proof.
  split; [reflexivity | split; [reflexivity | ]].
  induction dispatched as [| [now action] rest IH]; intros state Hstate Hall.
  - exact Hstate.
  - inversion Hall as [| d ds Hhead Htail]; subst. simpl.
    apply IH; [ | exact Htail].
    apply reducer_affinity_step; assumption.
Qed.

Lemma affinity_range_preserved_witness :
  0 <= affinityLevel
         (dispatch_all initialState
            [ (clock1, SEND_MESSAGE_START (lit "Hello"));
              (clock2, SEND_MESSAGE_SUCCESS mockResponse) ]) <= 100.
Proof.
  apply (proj2 (proj2 affinity_range_preserved)).
  - simpl. lia.
  - repeat constructor; simpl; lia.
Defined.

(* ================================================================== *)
(** ** Determinism and the store of objects *)
(* ================================================================== *)

(** Every call extends the store at its end and overwrites nothing. *)
Lemma heap_reducer_extends :
  forall now initial h state action h' r',
    Heap.chatReducer now initial h state action = Some (h', r') ->
    exists fresh, h' = h ++ fresh.
Proof.
  intros now initial h state action h' r' Hcall.
  destruct action; simpl in Hcall;
    repeat match type of Hcall with
           | context [match ?x with _ => _ end] => destruct x; try discriminate
           end;
    unfold Heap.alloc in Hcall; inversion Hcall; subst; clear Hcall.
  - rewrite <- app_assoc. eexists; reflexivity.
  - rewrite <- app_assoc. eexists; reflexivity.
  - eexists; reflexivity.
  - eexists; reflexivity.
  - exists []. rewrite app_nil_r. reflexivity.
Qed.

Lemma read_state_inv :
  forall h r s,
    Heap.read_state h r = Some s ->
    exists o l,
      Heap.read_object h r = Some o /\
      Heap.read_array h (Heap.messagesRef o) = Some l /\
      s = {| messages := l;
             currentImageUrl := Heap.o_currentImageUrl o;
             isLoading := Heap.o_isLoading o;
             isGeneratingImage := Heap.o_isGeneratingImage o;
             affinityLevel := Heap.o_affinityLevel o;
             sessionId := Heap.o_sessionId o |}.
Proof.
  intros h r s Hread. unfold Heap.read_state in Hread.
  destruct (Heap.read_object h r) as [o |] eqn:Ho; [ | discriminate].
  destruct (Heap.read_array h (Heap.messagesRef o)) as [l |] eqn:Hl;
    [ | discriminate].
  inversion Hread; subst. exists o, l. repeat split. exact Hl.
Qed.

Lemma read_object_app :
  forall h fresh r o,
    Heap.read_object h r = Some o -> Heap.read_object (h ++ fresh) r = Some o.
Proof.
  intros h fresh r o. unfold Heap.read_object.
  destruct (nth_error h r) as [c |] eqn:Hc; [ | discriminate].
  intros Hobj. rewrite nth_error_app1; [rewrite Hc; exact Hobj | ].
  apply nth_error_Some. rewrite Hc. discriminate.
Qed.

Lemma read_array_app :
  forall h fresh r l,
    Heap.read_array h r = Some l -> Heap.read_array (h ++ fresh) r = Some l.
Proof.
  intros h fresh r l. unfold Heap.read_array.
  destruct (nth_error h r) as [c |] eqn:Hc; [ | discriminate].
  intros Harr. rewrite nth_error_app1; [rewrite Hc; exact Harr | ].
  apply nth_error_Some. rewrite Hc. discriminate.
Qed.

Lemma read_state_app :
  forall h fresh r s,
    Heap.read_state h r = Some s -> Heap.read_state (h ++ fresh) r = Some s.
Proof.
  intros h fresh r s Hread.
  destruct (read_state_inv _ _ Hread) as (o & l & Ho & Hl & ->).
  unfold Heap.read_state.
  rewrite (read_object_app _ fresh _ Ho), (read_array_app _ fresh _ Hl).
  reflexivity.
Qed.

Lemma read_object_last :
  forall h o, Heap.read_object (h ++ [Heap.ObjectCell o]) (List.length h) = Some o.
Proof.
  intros h o. unfold Heap.read_object.
  rewrite nth_error_app2, Nat.sub_diag; [reflexivity | lia].
Qed.

Lemma read_array_last :
  forall h l, Heap.read_array (h ++ [Heap.ArrayCell l]) (List.length h) = Some l.
Proof.
  intros h l. unfold Heap.read_array.
  rewrite nth_error_app2, Nat.sub_diag; [reflexivity | lia].
Qed.

(** The call returned a freshly allocated object: name the store and the
    reference, and read the object back. *)
Ltac returns_fresh_object :=
  unfold Heap.alloc; do 2 eexists; split; [reflexivity | ];
  unfold Heap.read_state; rewrite read_object_last; simpl.

(** On a store where [state] denotes [s] and [initial] denotes
    [initialState], the call returns and its result denotes what the
    reducer on values computes. *)
Lemma heap_reducer_refines :
  forall now initial h state action s,
    Heap.read_state h state = Some s ->
    Heap.read_state h initial = Some initialState ->
    exists h' r',
      Heap.chatReducer now initial h state action = Some (h', r') /\
      Heap.read_state h' r' = Some (chatReducer now s action).
Proof.
  intros now initial h state action s Hs Hinit.
  destruct (read_state_inv _ _ Hs) as (o & l & Ho & Hl & ->).
  destruct action as [userMessage | response | | |]; simpl.
  - rewrite Ho, Hl. returns_fresh_object.
    rewrite (read_array_app _ _ _ (read_array_last h _)). reflexivity.
  - rewrite Ho, Hl. returns_fresh_object.
    rewrite (read_array_app _ _ _ (read_array_last h _)). reflexivity.
  - rewrite Ho. returns_fresh_object.
    rewrite (read_array_app _ _ _ Hl). reflexivity.
  - destruct (read_state_inv _ _ Hinit) as (oi & li & Hoi & Hli & Heq).
    rewrite Hoi. returns_fresh_object.
    rewrite (read_array_app _ _ _ Hli). rewrite <- Heq. reflexivity.
  - do 2 eexists. split; [reflexivity | exact Hs].
Qed.

(** Two calls with the same state and the same action, one second apart,
    return different states. *)
Lemma reducer_depends_on_clock :
  chatReducer clock1 initialState (SEND_MESSAGE_START (lit "Hello"))
    <> chatReducer clock2 initialState (SEND_MESSAGE_START (lit "Hello")) /\
  ~ (forall now1 now2 state action,
       chatReducer now1 state action = chatReducer now2 state action).
Proof.
  assert (Hneq :
    chatReducer clock1 initialState (SEND_MESSAGE_START (lit "Hello"))
      <> chatReducer clock2 initialState (SEND_MESSAGE_START (lit "Hello"))).
  { vm_compute. discriminate. }
  split; [exact Hneq | ].
  intros Hall. apply Hneq. apply Hall.
Qed.

Lemma start_equal_iff_clock :
  forall now1 now2 state userMessage,
    chatReducer now1 state (SEND_MESSAGE_START userMessage)
      = chatReducer now2 state (SEND_MESSAGE_START userMessage)
    <-> now1 = now2.
Proof.
  intros now1 now2 state userMessage. split.
  - intros Heq. apply (f_equal messages) in Heq. simpl in Heq.
    apply app_inv_head in Heq. inversion Heq. reflexivity.
  - intros ->. reflexivity.
Qed.

Lemma start_agrees_up_to_timestamp :
  forall now1 now2 state userMessage,
    let a := chatReducer now1 state (SEND_MESSAGE_START userMessage) in
    let b := chatReducer now2 state (SEND_MESSAGE_START userMessage) in
    map untimed (messages a) = map untimed (messages b) /\
    removelast (messages a) = removelast (messages b) /\
    currentImageUrl a = currentImageUrl b /\
    isLoading a = isLoading b /\
    isGeneratingImage a = isGeneratingImage b /\
    affinityLevel a = affinityLevel b /\
    sessionId a = sessionId b.
Proof.
  intros now1 now2 state userMessage a b; subst a b; simpl.
  repeat split.
  - rewrite !map_app. reflexivity.
  - rewrite !removelast_last. reflexivity.
Qed.

(** C8 (amended): the reducer never changes an object of the store it is
    given, the state passed in included, and its result is the one the
    reducer on values computes.  For every action but SEND_MESSAGE_START
    two calls with equal state and action return equal states.  For
    SEND_MESSAGE_START the result also depends on the clock reading of
    the call: two calls return equal states exactly when their clock
    readings are equal, and always agree on everything but the timestamp
    of the appended user message. *)
Theorem reducer_deterministic_up_to_clock :
  (forall now initial h state action s,
     Heap.read_state h state = Some s ->
     Heap.read_state h initial = Some initialState ->
     exists h' r',
       Heap.chatReducer now initial h state action = Some (h', r') /\
       (exists fresh, h' = h ++ fresh) /\
       Heap.read_state h' state = Some s /\
       Heap.read_state h' r' = Some (chatReducer now s action)) /\
  (forall now1 now2 state action,
     reads_clock action = false ->
     chatReducer now1 state action = chatReducer now2 state action) /\
  (forall now1 now2 state userMessage,
     chatReducer now1 state (SEND_MESSAGE_START userMessage)
       = chatReducer now2 state (SEND_MESSAGE_START userMessage)
     <-> now1 = now2) /\
  (forall now1 now2 state userMessage,
     let a := chatReducer now1 state (SEND_MESSAGE_START userMessage) in
     let b := chatReducer now2 state (SEND_MESSAGE_START userMessage) in
     map untimed (messages a) = map untimed (messages b) /\
     removelast (messages a) = removelast (messages b) /\
     currentImageUrl a = currentImageUrl b /\
     isLoading a = isLoading b /\
     isGeneratingImage a = isGeneratingImage b /\
     affinityLevel a = affinityLevel b /\
     sessionId a = sessionId b).
Proof.
  split; [ | split; [ | split]].
  - intros now initial h state action s Hs Hinit.
    destruct (heap_reducer_refines now initial h state action Hs Hinit)
      as (h' & r' & Hcall & Hresult).
    destruct (heap_reducer_extends _ _ _ _ _ Hcall) as (fresh & ->).
    exists (h ++ fresh), r'. repeat split.
    + exact Hcall.
    + exists fresh. reflexivity.
    + apply read_state_app. exact Hs.
    + exact Hresult.
  - intros now1 now2 state action Hclock.
    destruct action; simpl in Hclock; try discriminate; reflexivity.
  - apply start_equal_iff_clock.
  - apply start_agrees_up_to_timestamp.
Qed.

Lemma reducer_deterministic_up_to_clock_witness :
  (exists h' r',
     Heap.chatReducer clock1 1%nat initialHeap 1%nat
       (SEND_MESSAGE_START (lit "Hello")) = Some (h', r') /\
     (exists fresh, h' = initialHeap ++ fresh) /\
     Heap.read_state h' 1%nat = Some initialState /\
     Heap.read_state h' r'
       = Some (chatReducer clock1 initialState
                 (SEND_MESSAGE_START (lit "Hello")))) /\
  chatReducer clock1 stateWithImage (SEND_MESSAGE_SUCCESS mockResponse)
    = chatReducer clock2 stateWithImage (SEND_MESSAGE_SUCCESS mockResponse).
Proof.
  split.
  - apply (proj1 reducer_deterministic_up_to_clock
             clock1 1%nat initialHeap 1%nat
             (SEND_MESSAGE_START (lit "Hello")) initialState);
      reflexivity.
  - apply (proj1 (proj2 reducer_deterministic_up_to_clock)
             clock1 clock2 stateWithImage (SEND_MESSAGE_SUCCESS mockResponse)).
    reflexivity.
Defined.

(* ================================================================== *)
(** ** lib/api.ts: how a call ends *)
(* ================================================================== *)

Lemma ok_iff_2xx :
  forall response,
    Api.ok response = true <-> 200 <= Api.status response <= 299.
Proof.
  intros response. unfold Api.ok.
  rewrite andb_true_iff, !Z.leb_le. reflexivity.
Qed.

(** An ok response whose body is not JSON makes the call throw, so the
    call does not throw only on responses that are not ok. *)
Lemma ok_response_can_throw :
  Api.ok okButNotJson = true /\
  Api.throws (Api.sendConversationMessage serverNotJson firstRequest) /\
  ~ (forall response request,
       Api.throws
         (Api.sendConversationMessage
            (fun _ => Api.FetchResolved response) request)
       <-> Api.ok response = false).
Proof.
  assert (Hthrows :
    Api.throws (Api.sendConversationMessage serverNotJson firstRequest)).
  { exists Api.JsonError. reflexivity. }
  split; [reflexivity | split; [exact Hthrows | ]].
  intros Hall.
  apply (Hall okButNotJson firstRequest) in Hthrows.
  discriminate Hthrows.
Qed.

(** C7 (amended): the call throws its own "API error: status" error if
    and only if a response arrived and is not ok, that is, its status is
    outside 200..299; every response that is not ok makes the call throw;
    on an ok response whose body parses the call returns the parsed
    ConversationResponse, and the call returns a value in no other case. *)
Theorem sendConversationMessage_outcome :
  forall fetch request,
    (forall s,
       Api.sendConversationMessage fetch request = Api.Thrown (Api.ApiError s)
       <-> exists response,
             fetch request = Api.FetchResolved response /\
             Api.ok response = false /\ Api.status response = s) /\
    (forall response,
       fetch request = Api.FetchResolved response ->
       Api.ok response = false ->
       Api.throws (Api.sendConversationMessage fetch request)) /\
    (forall body,
       Api.sendConversationMessage fetch request = Api.Returned body
       <-> exists response,
             fetch request = Api.FetchResolved response /\
             Api.ok response = true /\
             Api.json response = Api.JsonParsed body) /\
    (forall response,
       Api.ok response = false <-> ~ 200 <= Api.status response <= 299).
Proof.
  intros fetch request. unfold Api.sendConversationMessage, Api.throws.
  split; [ | split; [ | split]].
  - intros s. split.
    + destruct (fetch request) as [| response]; [discriminate | ].
      destruct (Api.ok response) eqn:Hok; simpl.
      * destruct (Api.json response); discriminate.
      * intros Hthrown. inversion Hthrown; subst.
        exists response. repeat split. exact Hok.
    + intros (response & -> & Hok & <-). rewrite Hok. reflexivity.
  - intros response -> Hok. rewrite Hok. simpl. eexists. reflexivity.
  - intros body. split.
    + destruct (fetch request) as [| response]; [discriminate | ].
      destruct (Api.ok response) eqn:Hok; simpl; [ | discriminate].
      destruct (Api.json response) as [parsed |] eqn:Hjson; [ | discriminate].
      intros Hreturned. inversion Hreturned; subst.
      exists response. repeat split; assumption.
    + intros (response & -> & Hok & Hjson). rewrite Hok, Hjson. reflexivity.
  - intros response. rewrite <- ok_iff_2xx.
    destruct (Api.ok response); split; congruence.
Qed.

Lemma sendConversationMessage_outcome_witness :
  Api.throws (Api.sendConversationMessage serverUnavailable firstRequest) /\
  Api.sendConversationMessage serverOk firstRequest = Api.Returned mockResponse.
Proof.
  split.
  - apply (proj1 (proj2 (sendConversationMessage_outcome
                           serverUnavailable firstRequest))
             unavailableResponse); reflexivity.
  - apply (proj1 (proj2 (proj2 (sendConversationMessage_outcome
                                  serverOk firstRequest)))).
    exists okResponse. repeat split.
Defined.

(* ================================================================== *)
(** ** The provider: which session identifier a turn sends *)
(* ================================================================== *)

Lemma turn_success_session :
  forall fetch t1 t2 state message response,
    Api.sendConversationMessage fetch (sendMessage_request state message)
      = Api.Returned response ->
    sessionId (turn fetch t1 t2 state message)
      = nonnull (ConversationResponse.session_id response).
Proof.
  intros fetch t1 t2 state message response Hsend.
  unfold turn, sendMessage. rewrite Hsend. reflexivity.
Qed.

Lemma turn_failure_session :
  forall fetch t1 t2 state message e,
    Api.sendConversationMessage fetch (sendMessage_request state message)
      = Api.Thrown e ->
    sessionId (turn fetch t1 t2 state message) = sessionId state.
Proof.
  intros fetch t1 t2 state message e Hsend.
  unfold turn, sendMessage. rewrite Hsend. reflexivity.
Qed.

Lemma failed_turns_keep_session :
  forall inputs state,
    all_fail state inputs = true ->
    sessionId (run_turns state inputs) = sessionId state.
Proof.
  induction inputs as [| i rest IH]; intros state Hfail; simpl in *.
  - reflexivity.
  - destruct (Api.sendConversationMessage (ti_fetch i)
                (sendMessage_request state (ti_message i)))
      as [response | e] eqn:Hsend; [discriminate | ].
    rewrite (IH _ Hfail). unfold run_turn.
    apply (turn_failure_session _ _ _ _ _ Hsend).
Qed.

(** C6: the request of sendMessage has no session_id exactly when the
    stored sessionId is null, and otherwise carries the stored sessionId;
    after a turn that got a response, the stored sessionId is that
    response's session_id, so the next turn, and every turn after it
    until another response arrives, sends that identifier. *)
Theorem sendMessage_session_id :
  (forall state message,
     ConversationRequest.session_id (sendMessage_request state message)
       = undefined
     <-> sessionId state = null) /\
  (forall state message s,
     sessionId state = nonnull s ->
     ConversationRequest.session_id (sendMessage_request state message)
       = defined s) /\
  (forall i state response later message,
     Api.sendConversationMessage (ti_fetch i)
       (sendMessage_request state (ti_message i)) = Api.Returned response ->
     all_fail (run_turn state i) later = true ->
     ConversationRequest.session_id
       (sendMessage_request (run_turns (run_turn state i) later) message)
       = defined (ConversationResponse.session_id response)).
Proof.
  split; [ | split].
  - intros state message. simpl.
    destruct (sessionId state); simpl; split; intros H;
      try reflexivity; discriminate.
  - intros state message s Hs. simpl. rewrite Hs. reflexivity.
  - intros i state response later message Hsend Hfail. simpl.
    rewrite (failed_turns_keep_session _ _ Hfail).
    unfold run_turn. rewrite (turn_success_session _ _ _ _ _ Hsend).
    reflexivity.
Qed.

Lemma sendMessage_session_id_witness :
  ConversationRequest.session_id
    (sendMessage_request
       (run_turns
          (run_turn initialState
             (mkTurnInput serverOk clock1 clock2 (lit "Hello")))
          [ mkTurnInput serverDown clock1 clock2 (lit "Hello") ])
       (lit "Hello"))
  = defined (lit "session-abc").
Proof.
  apply (proj2 (proj2 sendMessage_session_id)
           (mkTurnInput serverOk clock1 clock2 (lit "Hello"))
           initialState mockResponse
           [ mkTurnInput serverDown clock1 clock2 (lit "Hello") ]
           (lit "Hello"));
    reflexivity.
Defined.

(* ================================================================== *)
(** ** components/MessageInput.tsx: what is sent *)
(* ================================================================== *)

Lemma trimStart_nil_iff :
  forall s, trimStart s = [] <-> forallb isWhiteSpace s = true.
Proof.
  induction s as [| c r IH]; simpl.
  - split; reflexivity.
  - destruct (isWhiteSpace c); simpl.
    + exact IH.
    + split; discriminate.
Qed.

Lemma forallb_trimStart :
  forall s, forallb isWhiteSpace (trimStart s) = forallb isWhiteSpace s.
Proof.
  induction s as [| c r IH]; simpl.
  - reflexivity.
  - destruct (isWhiteSpace c) eqn:Hc; simpl.
    + exact IH.
    + rewrite Hc. reflexivity.
Qed.

Lemma forallb_rev :
  forall (f : code_unit -> bool) s, forallb f (rev s) = forallb f s.
Proof.
  intros f s. induction s as [| c r IH]; simpl.
  - reflexivity.
  - rewrite forallb_app, IH. simpl. rewrite andb_true_r. apply andb_comm.
Qed.

(** The trimmed form of a string is empty exactly when the string
    consists of white space only (the empty string included). *)
Lemma trim_nil_iff :
  forall s, trim s = [] <-> forallb isWhiteSpace s = true.
Proof.
  intros s. unfold trim, trimEnd.
  rewrite <- (forallb_trimStart s), <- (forallb_rev _ (trimStart s)).
  rewrite <- trimStart_nil_iff.
  split; intros H.
  - apply (f_equal (@rev code_unit)) in H. rewrite rev_involutive in H.
    exact H.
  - rewrite H. reflexivity.
Qed.

Lemma truthy_false_iff :
  forall s, truthy s = false <-> s = [].
Proof.
  intros [| c r]; simpl; split; intros H; try reflexivity; discriminate.
Qed.

(** The tests of the component: surrounding blanks are removed, and a
    message of blanks is not sent. *)
Example handleSend_trims :
  MessageInput.onSend_calls (MessageInput.handleSend false (lit "  Hello!  "))
  = [lit "Hello!"].
Proof. reflexivity. Qed.

Example handleSend_blank :
  MessageInput.onSend_calls (MessageInput.handleSend false (lit "   ")) = [].
Proof. reflexivity. Qed.

Example handleKeyDown_loading :
  MessageInput.onSend_calls
    (MessageInput.handleKeyDown true (lit "Hello") (lit "Enter") false) = [].
Proof. reflexivity. Qed.

(** C3: when the trimmed form of the input is empty (the input is empty
    or white space only) the send handler calls onSend not at all, be it
    reached from the button or from the Enter key; when the trimmed form
    is not empty and isLoading is false it calls onSend once, with the
    trimmed string. *)
Theorem handleSend_rejects_blank :
  forall loading message,
    (trim message = [] ->
       MessageInput.onSend_calls (MessageInput.handleSend loading message) = [] /\
       MessageInput.onSend_calls (MessageInput.handleClick loading message) = [] /\
       forall key shiftKey,
         MessageInput.onSend_calls
           (MessageInput.handleKeyDown loading message key shiftKey) = []) /\
    (forallb isWhiteSpace message = true ->
       MessageInput.onSend_calls (MessageInput.handleSend loading message) = []) /\
    (trim message <> [] -> loading = false ->
       MessageInput.onSend_calls (MessageInput.handleSend loading message)
         = [trim message] /\
       MessageInput.onSend_calls (MessageInput.handleClick loading message)
         = [trim message] /\
       MessageInput.onSend_calls
         (MessageInput.handleKeyDown loading message (lit "Enter") false)
         = [trim message]).
Proof.
  intros loading message.
  assert (Hblank : trim message = [] ->
            MessageInput.onSend_calls
              (MessageInput.handleSend loading message) = []).
  { intros Hempty. unfold MessageInput.handleSend.
    rewrite Hempty. reflexivity. }
  split; [ | split].
  - intros Hempty. split; [auto | split].
    + unfold MessageInput.handleClick.
      destruct (MessageInput.buttonDisabled loading message); auto.
    + intros key shiftKey. unfold MessageInput.handleKeyDown.
      destruct (jstring_eqb key (lit "Enter") && negb shiftKey); auto.
  - intros Hws. apply Hblank. apply trim_nil_iff. exact Hws.
  - intros Hfull ->.
    assert (Htruthy : truthy (trim message) = true).
    { destruct (truthy (trim message)) eqn:Ht; [reflexivity | ].
      apply truthy_false_iff in Ht. contradiction. }
    unfold MessageInput.handleKeyDown, MessageInput.handleClick,
      MessageInput.buttonDisabled, MessageInput.handleSend.
    rewrite Htruthy. simpl. repeat split.
Qed.

Lemma handleSend_rejects_blank_witness :
  MessageInput.onSend_calls (MessageInput.handleSend false (lit "   ")) = [] /\
  MessageInput.onSend_calls (MessageInput.handleSend false (lit "  Hello!  "))
    = [lit "Hello!"].
Proof.
  split.
  - apply (proj1 (handleSend_rejects_blank false (lit "   "))).
    reflexivity.
  - apply (proj2 (proj2 (handleSend_rejects_blank false (lit "  Hello!  ")))).
    + vm_compute. discriminate.
    + reflexivity.
Defined.

(* ================================================================== *)
(** ** components/CharacterImageDisplay.tsx: what is rendered *)
(* ================================================================== *)

(** The second component of the file shows the skeleton and no image
    whenever an image is being generated, an image only when none is being
    generated and the URL is not empty, and the placeholder otherwise. *)
Lemma second_component_views :
  forall imageUrl isGenerating,
    let view :=
      CharacterImageDisplay.CharacterImageDisplay_second imageUrl isGenerating in
    (isGenerating = true ->
       CharacterImageDisplay.has_skeleton view = true /\
       CharacterImageDisplay.has_img view = false) /\
    (CharacterImageDisplay.has_img view = true <->
       isGenerating = false /\ imageUrl <> []) /\
    (isGenerating = false -> imageUrl = [] ->
       CharacterImageDisplay.has_text
         CharacterImageDisplay.placeholderText view = true /\
       CharacterImageDisplay.has_img view = false).
Proof.
  intros imageUrl isGenerating view; subst view.
  unfold CharacterImageDisplay.CharacterImageDisplay_second.
  destruct isGenerating, imageUrl as [| c r]; simpl;
    repeat split; try reflexivity; try discriminate; try tauto;
    intros; try discriminate; try tauto.
  all: try (destruct H; congruence).
Qed.

(** The component of the file shows the image, not the skeleton, whenever
    the URL is not empty, an image being generated or not. *)
Lemma component_image_iff :
  forall env imageUrl isGenerating,
    let view :=
      CharacterImageDisplay.CharacterImageDisplay env imageUrl isGenerating in
    (CharacterImageDisplay.has_img view = true <-> imageUrl <> []) /\
    (CharacterImageDisplay.has_skeleton view = true <->
       isGenerating = true /\ imageUrl = []).
Proof.
  intros env imageUrl isGenerating view; subst view.
  unfold CharacterImageDisplay.CharacterImageDisplay.
  destruct isGenerating, imageUrl as [| c r]; simpl;
    repeat split; try reflexivity; try discriminate; try tauto;
    intros; try discriminate; try tauto.
  all: try (destruct H; congruence).
Qed.

(** C10: with isGenerating true and the URL "/images/test.png" of the
    component's test, the component renders an img element and no
    skeleton, where the property and the test ask for the skeleton and no
    img; the second component of the file renders the skeleton there. *)
Theorem generating_with_image_renders_img :
  forall env,
    let view :=
      CharacterImageDisplay.CharacterImageDisplay env
        (lit "/images/test.png") true in
    CharacterImageDisplay.has_img view = true /\
    CharacterImageDisplay.has_skeleton view = false /\
    view = CharacterImageDisplay.Card
             [ CharacterImageDisplay.CardContent
                 [ CharacterImageDisplay.Div
                     [ CharacterImageDisplay.Img
                         (CharacterImageDisplay.API_BASE_URL env
                            ++ lit "/images/test.png")
                         (lit "Character") ] ] ] /\
    CharacterImageDisplay.has_skeleton
      (CharacterImageDisplay.CharacterImageDisplay_second
         (lit "/images/test.png") true) = true /\
    CharacterImageDisplay.has_img
      (CharacterImageDisplay.CharacterImageDisplay_second
         (lit "/images/test.png") true) = false.
Proof.
  intros env view; subst view. repeat split.
Qed.

(* ================================================================== *)
(** ** The trigger policy *)
(* ================================================================== *)

Lemma category_eqb_eq :
  forall a b, TriggerPolicy.category_eqb a b = true <-> a = b.
Proof.
  intros a b; destruct a, b; simpl; split; intros H;
    try reflexivity; discriminate.
Qed.

Lemma scene_eqb_eq :
  forall a b, TriggerPolicy.scene_eqb a b = true <-> a = b.
Proof.
  intros a b; destruct a, b; simpl; split; intros H;
    try reflexivity; discriminate.
Qed.

(** Scenarios A, B and C of the specification. *)
Example scenario_A :
  TriggerPolicy.evaluate TriggerPolicy.defaultThresholds
    (TriggerPolicy.mkTurnState TriggerPolicy.neutral TriggerPolicy.indoor 20 false)
    (TriggerPolicy.mkTurnState TriggerPolicy.happy TriggerPolicy.indoor 25 false)
  = TriggerPolicy.mkDecision true false.
Proof. reflexivity. Qed.

Example scenario_B :
  TriggerPolicy.evaluate TriggerPolicy.defaultThresholds
    (TriggerPolicy.mkTurnState TriggerPolicy.happy TriggerPolicy.cafe 30 false)
    (TriggerPolicy.mkTurnState TriggerPolicy.excited TriggerPolicy.cafe 32 false)
  = TriggerPolicy.mkDecision false false.
Proof. reflexivity. Qed.

Example scenario_C :
  TriggerPolicy.evaluate TriggerPolicy.defaultThresholds
    (TriggerPolicy.mkTurnState TriggerPolicy.happy TriggerPolicy.cafe 40 false)
    (TriggerPolicy.mkTurnState TriggerPolicy.happy TriggerPolicy.cafe 52 false)
  = TriggerPolicy.mkDecision true true.
Proof. reflexivity. Qed.

(** C2: evaluate(prev, curr) returns regenerateImage = true if and only
    if the emotion category of curr differs from that of prev, or the
    scene differs, or the absolute difference of the affinities is at
    least the image threshold; with the default thresholds that is an
    absolute difference of at least 10. *)
Theorem evaluate_regenerateImage_iff :
  (forall cfg prev curr,
     TriggerPolicy.regenerateImage (TriggerPolicy.evaluate cfg prev curr) = true
     <-> TriggerPolicy.category (TriggerPolicy.emotion curr)
           <> TriggerPolicy.category (TriggerPolicy.emotion prev)
         \/ TriggerPolicy.scene curr <> TriggerPolicy.scene prev
         \/ Z.abs (TriggerPolicy.affinity curr - TriggerPolicy.affinity prev)
            >= TriggerPolicy.AFFINITY_IMAGE_THRESHOLD cfg) /\
  (forall prev curr,
     TriggerPolicy.regenerateImage
       (TriggerPolicy.evaluate TriggerPolicy.defaultThresholds prev curr) = true
     <-> TriggerPolicy.category (TriggerPolicy.emotion curr)
           <> TriggerPolicy.category (TriggerPolicy.emotion prev)
         \/ TriggerPolicy.scene curr <> TriggerPolicy.scene prev
         \/ Z.abs (TriggerPolicy.affinity curr - TriggerPolicy.affinity prev)
            >= 10).
Proof.
  assert (Hgeneral : forall cfg prev curr,
     TriggerPolicy.regenerateImage (TriggerPolicy.evaluate cfg prev curr) = true
     <-> TriggerPolicy.category (TriggerPolicy.emotion curr)
           <> TriggerPolicy.category (TriggerPolicy.emotion prev)
         \/ TriggerPolicy.scene curr <> TriggerPolicy.scene prev
         \/ Z.abs (TriggerPolicy.affinity curr - TriggerPolicy.affinity prev)
            >= TriggerPolicy.AFFINITY_IMAGE_THRESHOLD cfg).
  { intros cfg prev curr. simpl.
    destruct (TriggerPolicy.category_eqb
                (TriggerPolicy.category (TriggerPolicy.emotion curr))
                (TriggerPolicy.category (TriggerPolicy.emotion prev)))
      eqn:Hcat; simpl.
    - apply category_eqb_eq in Hcat.
      destruct (TriggerPolicy.scene_eqb (TriggerPolicy.scene curr)
                  (TriggerPolicy.scene prev)) eqn:Hscene; simpl.
      + apply scene_eqb_eq in Hscene. rewrite Z.leb_le.
        split; [intros Hle; right; right; lia | ].
        intros [Hc | [Hs | Hd]]; [contradiction | contradiction | lia].
      + split; [intros _ | reflexivity].
        right; left. intros Heq. apply scene_eqb_eq in Heq. congruence.
    - split; [intros _ | reflexivity].
      left. intros Heq. apply category_eqb_eq in Heq. congruence. }
  split; [exact Hgeneral | ].
  intros prev curr. apply (Hgeneral TriggerPolicy.defaultThresholds).
Qed.

(* ================================================================== *)
(** ** The store over sequences of dispatches *)
(* ================================================================== *)

Lemma dispatch_all_app :
  forall first second state,
    dispatch_all state (first ++ second)
    = dispatch_all (dispatch_all state first) second.
Proof.
  induction first as [| [now action] rest IH]; intros second state; simpl.
  - reflexivity.
  - apply IH.
Qed.

(** X1: as long as CLEAR_HISTORY is not dispatched the log only grows at
    its end: the messages after a sequence of dispatches are the messages
    before it followed by at most one new message per dispatch. *)
Theorem log_is_append_only :
  forall dispatched state,
    existsb (fun d => isClear (snd d)) dispatched = false ->
    exists added,
      messages (dispatch_all state dispatched) = messages state ++ added /\
      (List.length added <= List.length dispatched)%nat.
Proof.
  induction dispatched as [| [now action] rest IH]; intros state Hclear.
  - exists []. simpl. rewrite app_nil_r. split; [reflexivity | lia].
  - simpl in Hclear. apply orb_false_iff in Hclear.
    destruct Hclear as [Haction Hrest].
    destruct (IH (chatReducer now state action) Hrest) as (added & Heq & Hlen).
    simpl. rewrite Heq.
    destruct action; simpl in *; try discriminate.
    + eexists. rewrite <- app_assoc. split; [reflexivity | simpl; lia].
    + eexists. rewrite <- app_assoc. split; [reflexivity | simpl; lia].
    + exists added. split; [reflexivity | lia].
    + exists added. split; [reflexivity | lia].
Qed.

Lemma log_is_append_only_witness :
  exists added,
    messages
      (dispatch_all stateWithImage
         [ (clock2, SEND_MESSAGE_SUCCESS mockResponse);
           (clock2, SEND_MESSAGE_START (lit "Hello"));
           (clock2, SEND_MESSAGE_ERROR) ])
    = messages stateWithImage ++ added /\
    (List.length added <= 3)%nat.
Proof.
  apply (log_is_append_only
           [ (clock2, SEND_MESSAGE_SUCCESS mockResponse);
             (clock2, SEND_MESSAGE_START (lit "Hello"));
             (clock2, SEND_MESSAGE_ERROR) ] stateWithImage).
  reflexivity.
Defined.

Lemma flags_agree_step :
  forall now state action,
    isLoading state = isGeneratingImage state ->
    isLoading (chatReducer now state action)
    = isGeneratingImage (chatReducer now state action).
Proof.
  intros now state action Hagree. destruct action; simpl; auto.
Qed.

Lemma flags_agree_from :
  forall dispatched state,
    isLoading state = isGeneratingImage state ->
    isLoading (dispatch_all state dispatched)
    = isGeneratingImage (dispatch_all state dispatched).
Proof.
  induction dispatched as [| [now action] rest IH]; intros state Hagree; simpl.
  - exact Hagree.
  - apply IH. apply flags_agree_step. exact Hagree.
Qed.

(** X2: in every state the store reaches from initialState the two flags
    isLoading and isGeneratingImage have the same value. *)
Theorem loading_flags_agree :
  forall dispatched,
    isLoading (dispatch_all initialState dispatched)
    = isGeneratingImage (dispatch_all initialState dispatched).
Proof.
  intros dispatched. apply flags_agree_from. reflexivity.
Qed.

Lemma session_invariant_step :
  forall now state action,
    session_invariant state ->
    session_invariant (chatReducer now state action).
Proof.
  intros now state action. unfold session_invariant.
  destruct action; simpl.
  - destruct (sessionId state); rewrite existsb_app; simpl.
    + intros (Hnone & Haff & Himg). rewrite Hnone. repeat split; assumption.
    + intros Hsome. rewrite Hsome. reflexivity.
  - intros _. rewrite existsb_app. simpl. apply orb_true_r.
  - destruct (sessionId state); auto.
  - intros _. repeat split.
  - auto.
Qed.

Lemma session_invariant_from :
  forall dispatched state,
    session_invariant state ->
    session_invariant (dispatch_all state dispatched).
Proof.
  induction dispatched as [| [now action] rest IH]; intros state Hinv; simpl.
  - exact Hinv.
  - apply IH. apply session_invariant_step. exact Hinv.
Qed.

(** X3: in every state the store reaches from initialState, the stored
    sessionId is null exactly when the log holds no agent message, and a
    state without a session has affinity 0 and no image. *)
Theorem session_iff_agent_reply :
  forall dispatched,
    let state := dispatch_all initialState dispatched in
    (sessionId state = null
     <-> existsb isAgentMessage (messages state) = false) /\
    (sessionId state = null ->
       affinityLevel state = 0 /\ currentImageUrl state = []).
Proof.
  intros dispatched state.
  assert (Hinv : session_invariant state).
  { apply session_invariant_from. repeat split. }
  unfold session_invariant in Hinv.
  destruct (sessionId state) as [| s].
  - destruct Hinv as (Hnone & Haff & Himg).
    repeat split; auto.
  - split.
    + split; [discriminate | ]. intros Hnone. rewrite Hnone in Hinv.
      discriminate.
    + discriminate.
Qed.

Lemma session_iff_agent_reply_witness :
  affinityLevel
    (dispatch_all initialState
       [ (clock1, SEND_MESSAGE_START (lit "Hello"));
         (clock2, SEND_MESSAGE_ERROR) ]) = 0 /\
  currentImageUrl
    (dispatch_all initialState
       [ (clock1, SEND_MESSAGE_START (lit "Hello"));
         (clock2, SEND_MESSAGE_ERROR) ]) = [].
Proof.
  apply (proj2 (session_iff_agent_reply
                  [ (clock1, SEND_MESSAGE_START (lit "Hello"));
                    (clock2, SEND_MESSAGE_ERROR) ])).
  reflexivity.
Defined.

(** X4: whatever was dispatched before, once CLEAR_HISTORY is dispatched
    the state is initialState again, and the request of the next
    sendMessage carries no session_id, the user id "demo-user" and the
    message as given. *)
Theorem clear_history_starts_over :
  forall dispatched now state message,
    let cleared := dispatch_all state (dispatched ++ [(now, CLEAR_HISTORY)]) in
    cleared = initialState /\
    sendMessage_request cleared message
    = {| ConversationRequest.user_id := lit "demo-user";
         ConversationRequest.message := message;
         ConversationRequest.session_id := undefined |}.
Proof.
  intros dispatched now state message cleared; subst cleared.
  rewrite dispatch_all_app. simpl. split; reflexivity.
Qed.

(* ================================================================== *)
(** ** Complete turns of the provider *)
(* ================================================================== *)

(** X5: a turn always ends with both loading flags false.  When no
    response arrives, the response is not ok or its body does not parse,
    the turn only adds the user's message: image, affinity and session
    are as before.  When an ok response parses, the turn adds the user's
    message and the agent's reply and takes affinity and session from
    the response. *)
Theorem turn_outcome :
  forall fetch t1 t2 state message,
    let request := sendMessage_request state message in
    let next := turn fetch t1 t2 state message in
    let sent :=
      {| Message.role := user;
         Message.dialogue := message;
         Message.narration := undefined;
         Message.timestamp := t1 |} in
    isLoading next = false /\
    isGeneratingImage next = false /\
    (fetch request = Api.FetchRejected \/
     (exists response,
        fetch request = Api.FetchResolved response /\
        (Api.ok response = false \/ Api.json response = Api.JsonRejected)) ->
     messages next = messages state ++ [sent] /\
     currentImageUrl next = currentImageUrl state /\
     affinityLevel next = affinityLevel state /\
     sessionId next = sessionId state) /\
    (forall response body,
       fetch request = Api.FetchResolved response ->
       Api.ok response = true ->
       Api.json response = Api.JsonParsed body ->
       messages next =
         messages state ++
         [ sent;
           {| Message.role := agent;
              Message.dialogue := ConversationResponse.dialogue body;
              Message.narration :=
                defined (ConversationResponse.narration body);
              Message.timestamp := ConversationResponse.timestamp body |} ] /\
       currentImageUrl next =
         coalesce (ConversationResponse.image_url body)
                  (currentImageUrl state) /\
       affinityLevel next = ConversationResponse.affinity_level body /\
       sessionId next = nonnull (ConversationResponse.session_id body)).
Proof.
  intros fetch t1 t2 state message request next sent.
  subst request next sent.
  unfold turn, sendMessage, Api.sendConversationMessage.
  split; [ | split; [ | split]].
  - destruct (fetch (sendMessage_request state message)) as [| response];
      [reflexivity | ].
    destruct (Api.ok response); simpl; [ | reflexivity].
    destruct (Api.json response); reflexivity.
  - destruct (fetch (sendMessage_request state message)) as [| response];
      [reflexivity | ].
    destruct (Api.ok response); simpl; [ | reflexivity].
    destruct (Api.json response); reflexivity.
  - intros [-> | (response & -> & [Hok | Hjson])].
    + simpl. repeat split.
    + rewrite Hok. simpl. repeat split.
    + rewrite Hjson. destruct (Api.ok response); simpl; repeat split.
  - intros response body -> Hok Hjson. rewrite Hok, Hjson. simpl.
    rewrite <- app_assoc. repeat split.
Qed.

Lemma turn_outcome_witness :
  (messages (turn serverUnavailable clock1 clock2 stateWithImage (lit "Hi"))
   = messages stateWithImage ++
     [ {| Message.role := user;
          Message.dialogue := lit "Hi";
          Message.narration := undefined;
          Message.timestamp := clock1 |} ] /\
   currentImageUrl (turn serverUnavailable clock1 clock2 stateWithImage (lit "Hi"))
   = currentImageUrl stateWithImage /\
   affinityLevel (turn serverUnavailable clock1 clock2 stateWithImage (lit "Hi"))
   = affinityLevel stateWithImage /\
   sessionId (turn serverUnavailable clock1 clock2 stateWithImage (lit "Hi"))
   = sessionId stateWithImage) /\
  affinityLevel (turn serverOk clock1 clock2 stateWithImage (lit "Hi")) = 15.
Proof.
  split.
  - apply (proj1 (proj2 (proj2
             (turn_outcome serverUnavailable clock1 clock2
                stateWithImage (lit "Hi"))))).
    right. exists unavailableResponse. split; [reflexivity | ].
    left. reflexivity.
  - apply (proj2 (proj2 (proj2
             (turn_outcome serverOk clock1 clock2 stateWithImage (lit "Hi"))))
             okResponse mockResponse); reflexivity.
Defined.

Lemma replies_follow_user :
  forall roles after_user,
    replies_follow after_user (roles ++ [user])
    = replies_follow after_user roles.
Proof.
  induction roles as [| r rest IH]; intros after_user; simpl.
  - reflexivity.
  - destruct r; [apply IH | rewrite IH; reflexivity].
Qed.

Lemma replies_follow_user_agent :
  forall roles after_user,
    replies_follow after_user (roles ++ [user; agent])
    = replies_follow after_user roles.
Proof.
  induction roles as [| r rest IH]; intros after_user; simpl.
  - reflexivity.
  - destruct r; [apply IH | rewrite IH; reflexivity].
Qed.

Lemma run_turn_roles :
  forall state i,
    map Message.role (messages (run_turn state i))
      = map Message.role (messages state) ++ [user] \/
    map Message.role (messages (run_turn state i))
      = map Message.role (messages state) ++ [user; agent].
Proof.
  intros state i. unfold run_turn, turn, sendMessage.
  destruct (Api.sendConversationMessage (ti_fetch i)
              (sendMessage_request state (ti_message i))); simpl.
  - right. rewrite <- app_assoc, map_app. reflexivity.
  - left. rewrite map_app. reflexivity.
Qed.

Lemma replies_follow_turns :
  forall inputs state after_user,
    replies_follow after_user (map Message.role (messages state)) = true ->
    replies_follow after_user
      (map Message.role (messages (run_turns state inputs))) = true.
Proof.
  induction inputs as [| i rest IH]; intros state after_user Hstate; simpl.
  - exact Hstate.
  - apply IH.
    destruct (run_turn_roles state i) as [-> | ->].
    + rewrite replies_follow_user. exact Hstate.
    + rewrite replies_follow_user_agent. exact Hstate.
Qed.

(** X6: after any sequence of complete turns from initialState, every
    agent message of the log comes directly after a user message; in
    particular the log never starts with an agent message and never holds
    two agent messages in a row. *)
Theorem replies_follow_user_messages :
  forall inputs,
    replies_follow false
      (map Message.role (messages (run_turns initialState inputs))) = true.
Proof.
  intros inputs. apply replies_follow_turns. reflexivity.
Qed.

(* ================================================================== *)
(** ** The store of objects over sequences of dispatches *)
(* ================================================================== *)

(** X7: on the store of objects a sequence of dispatches runs to its end,
    only adds objects to the store, leaves the initialState object and
    the object it started from as they were, and ends in a reference
    that denotes the state the reducer on values computes. *)
Theorem heap_dispatch_all_refines :
  forall dispatched initial h state s,
    Heap.read_state h state = Some s ->
    Heap.read_state h initial = Some initialState ->
    exists h' r',
      heap_dispatch_all initial h state dispatched = Some (h', r') /\
      (exists fresh, h' = h ++ fresh) /\
      Heap.read_state h' initial = Some initialState /\
      Heap.read_state h' state = Some s /\
      Heap.read_state h' r' = Some (dispatch_all s dispatched).
Proof.
  induction dispatched as [| [now action] rest IH];
    intros initial h state s Hs Hinit; simpl.
  - exists h, state. repeat split; try assumption.
    exists []. rewrite app_nil_r. reflexivity.
  - destruct (heap_reducer_refines now initial h state action Hs Hinit)
      as (h1 & r1 & Hcall & Hnext).
    destruct (heap_reducer_extends _ _ _ _ _ Hcall) as (fresh1 & ->).
    rewrite Hcall.
    destruct (IH initial (h ++ fresh1) r1 _ Hnext
                (read_state_app _ fresh1 _ Hinit))
      as (h' & r' & Hrun & (fresh2 & ->) & Hinit' & _ & Hresult).
    exists ((h ++ fresh1) ++ fresh2), r'. repeat split.
    + exact Hrun.
    + exists (fresh1 ++ fresh2). rewrite app_assoc. reflexivity.
    + exact Hinit'.
    + apply read_state_app. apply read_state_app. exact Hs.
    + exact Hresult.
Qed.

Lemma heap_dispatch_all_refines_witness :
  exists h' r',
    heap_dispatch_all 1%nat initialHeap 1%nat
      [ (clock1, SEND_MESSAGE_START (lit "Hello"));
        (clock2, SEND_MESSAGE_SUCCESS mockResponse);
        (clock2, CLEAR_HISTORY) ] = Some (h', r') /\
    (exists fresh, h' = initialHeap ++ fresh) /\
    Heap.read_state h' 1%nat = Some initialState /\
    Heap.read_state h' 1%nat = Some initialState /\
    Heap.read_state h' r'
    = Some (dispatch_all initialState
              [ (clock1, SEND_MESSAGE_START (lit "Hello"));
                (clock2, SEND_MESSAGE_SUCCESS mockResponse);
                (clock2, CLEAR_HISTORY) ]).
Proof.
  apply (heap_dispatch_all_refines
           [ (clock1, SEND_MESSAGE_START (lit "Hello"));
             (clock2, SEND_MESSAGE_SUCCESS mockResponse);
             (clock2, CLEAR_HISTORY) ]
           1%nat initialHeap 1%nat (s := initialState));
    reflexivity.
Defined.

(* ================================================================== *)
(** ** components/ConversationLog.tsx: what the log shows *)
(* ================================================================== *)

Lemma mapFrom_nth :
  forall msgs index i,
    nth_error (ConversationLog.mapFrom index msgs) i
    = option_map (fun m => ConversationLog.renderMessage m (index + i))
        (nth_error msgs i).
Proof.
  induction msgs as [| m rest IH]; intros index i; simpl.
  - destruct i; reflexivity.
  - destruct i as [| i]; simpl.
    + rewrite Nat.add_0_r. reflexivity.
    + rewrite IH. rewrite Nat.add_succ_r. reflexivity.
Qed.

Lemma mapFrom_app :
  forall first second index,
    ConversationLog.mapFrom index (first ++ second)
    = ConversationLog.mapFrom index first
      ++ ConversationLog.mapFrom (index + List.length first) second.
Proof.
  induction first as [| m rest IH]; intros second index; simpl.
  - rewrite Nat.add_0_r. reflexivity.
  - rewrite IH. rewrite Nat.add_succ_r. reflexivity.
Qed.

Lemma mapFrom_length :
  forall msgs index,
    List.length (ConversationLog.mapFrom index msgs)
    = List.length msgs.
Proof.
  induction msgs as [| m rest IH]; intros index; simpl.
  - reflexivity.
  - rewrite IH. reflexivity.
Qed.

(** X8: the log shows one item per message, in the order of the
    messages: item i has key i and the role and dialogue of message i,
    and shows a narration exactly when message i has a narration that is
    not the empty string, which is then the narration shown. *)
Theorem log_items_follow_messages :
  forall msgs,
    List.length (ConversationLog.ConversationLog msgs)
    = List.length msgs /\
    forall i item,
      nth_error (ConversationLog.ConversationLog msgs) i = Some item ->
      exists message,
        nth_error msgs i = Some message /\
        ConversationLog.key item = i /\
        ConversationLog.data_role item = Message.role message /\
        ConversationLog.dialogueText item = Message.dialogue message /\
        (forall n,
           ConversationLog.narrationText item = defined n
           <-> Message.narration message = defined n /\ n <> []).
Proof.
  intros msgs. unfold ConversationLog.ConversationLog.
  split; [apply mapFrom_length | ].
  intros i item Hitem. rewrite mapFrom_nth in Hitem.
  destruct (nth_error msgs i) as [message |]; [ | discriminate].
  simpl in Hitem. inversion Hitem; subst; clear Hitem.
  exists message. simpl. repeat split.
  - destruct (Message.narration message) as [| n']; [discriminate | ].
    destruct n' as [| c r]; simpl in H; [discriminate | ].
    inversion H; subst. reflexivity.
  - destruct (Message.narration message) as [| n']; [discriminate | ].
    destruct n' as [| c r]; simpl in H; [discriminate | ].
    inversion H; subst. discriminate.
  - intros (Hn & Hne). rewrite Hn.
    destruct n as [| c r]; [contradiction | reflexivity].
Qed.

Lemma log_items_follow_messages_witness :
  exists message,
    nth_error [userMessage; agentMessage] 1 = Some message /\
    ConversationLog.key
      (ConversationLog.renderMessage agentMessage 1) = 1%nat /\
    ConversationLog.data_role
      (ConversationLog.renderMessage agentMessage 1) = Message.role message /\
    ConversationLog.dialogueText
      (ConversationLog.renderMessage agentMessage 1)
      = Message.dialogue message /\
    (forall n,
       ConversationLog.narrationText
         (ConversationLog.renderMessage agentMessage 1) = defined n
       <-> Message.narration message = defined n /\ n <> []).
Proof.
  apply (proj2 (log_items_follow_messages [userMessage; agentMessage])
           1%nat (ConversationLog.renderMessage agentMessage 1)).
  reflexivity.
Defined.

(** X9: every dispatch but CLEAR_HISTORY leaves the items the page
    already shows as they are, keys included, and adds at most one item
    at the end: one aligned to the end for a user message, without
    narration, on SEND_MESSAGE_START, one aligned to the start for the
    agent's reply on SEND_MESSAGE_SUCCESS, none otherwise. *)
Theorem log_items_are_stable :
  forall now state action,
    isClear action = false ->
    exists added,
      ChatPage_log (chatReducer now state action)
      = ChatPage_log state ++ added /\
      match action with
      | SEND_MESSAGE_START userMessage =>
          added =
          [ {| ConversationLog.key := List.length (messages state);
               ConversationLog.data_role := user;
               ConversationLog.wrapperClass := lit "flex flex-col items-end";
               ConversationLog.bubbleClass :=
                 lit "max-w-[80%] rounded-lg px-4 py-2 bg-primary text-primary-foreground";
               ConversationLog.dialogueText := userMessage;
               ConversationLog.narrationText := undefined |} ]
      | SEND_MESSAGE_SUCCESS response =>
          added =
          [ {| ConversationLog.key := List.length (messages state);
               ConversationLog.data_role := agent;
               ConversationLog.wrapperClass := lit "flex flex-col items-start";
               ConversationLog.bubbleClass :=
                 lit "max-w-[80%] rounded-lg px-4 py-2 bg-muted";
               ConversationLog.dialogueText :=
                 ConversationResponse.dialogue response;
               ConversationLog.narrationText :=
                 if truthy (ConversationResponse.narration response)
                 then defined (ConversationResponse.narration response)
                 else undefined |} ]
      | _ => added = []
      end.
Proof.
  intros now state action Hclear.
  unfold ChatPage_log, ConversationLog.ConversationLog.
  destruct action; simpl in *; try discriminate.
  - rewrite mapFrom_app. eexists. split; reflexivity.
  - rewrite mapFrom_app. eexists. split; reflexivity.
  - exists []. rewrite app_nil_r. split; reflexivity.
  - exists []. rewrite app_nil_r. split; reflexivity.
Qed.

Lemma log_items_are_stable_witness :
  exists added,
    ChatPage_log
      (chatReducer clock2 stateWithUserMsg (SEND_MESSAGE_SUCCESS mockResponse))
    = ChatPage_log stateWithUserMsg ++ added /\
    added =
    [ {| ConversationLog.key := 1;
         ConversationLog.data_role := agent;
         ConversationLog.wrapperClass := lit "flex flex-col items-start";
         ConversationLog.bubbleClass :=
           lit "max-w-[80%] rounded-lg px-4 py-2 bg-muted";
         ConversationLog.dialogueText := lit "Hi there!";
         ConversationLog.narrationText := defined (lit "She smiled warmly.") |} ].
Proof.
  apply (log_items_are_stable clock2 stateWithUserMsg
           (SEND_MESSAGE_SUCCESS mockResponse)).
  reflexivity.
Defined.

(* ================================================================== *)
(** ** components/MessageInput.tsx: the handlers *)
(* ================================================================== *)

Lemma trimStart_decomp :
  forall s, exists pre,
    s = pre ++ trimStart s /\ forallb isWhiteSpace pre = true.
Proof.
  induction s as [| c r IH]; simpl.
  - exists []. split; reflexivity.
  - destruct (isWhiteSpace c) eqn:Hc.
    + destruct IH as (pre & Heq & Hpre).
      exists (c :: pre). simpl. rewrite Hc, Hpre, <- Heq.
      split; reflexivity.
    + exists []. split; reflexivity.
Qed.

Lemma trimStart_head :
  forall s c r, trimStart s = c :: r -> isWhiteSpace c = false.
Proof.
  induction s as [| a s' IH]; intros c r; simpl.
  - discriminate.
  - destruct (isWhiteSpace a) eqn:Ha.
    + apply IH.
    + intros Heq. inversion Heq; subst. exact Ha.
Qed.

Lemma trimStart_fixed :
  forall c r, isWhiteSpace c = false -> trimStart (c :: r) = c :: r.
Proof.
  intros c r Hc. simpl. rewrite Hc. reflexivity.
Qed.

Lemma trimEnd_decomp :
  forall s, exists post,
    s = trimEnd s ++ post /\ forallb isWhiteSpace post = true.
Proof.
  intros s. unfold trimEnd.
  destruct (trimStart_decomp (rev s)) as (pre & Heq & Hpre).
  exists (rev pre). split.
  - rewrite <- rev_app_distr, <- Heq, rev_involutive. reflexivity.
  - rewrite forallb_rev. exact Hpre.
Qed.

Lemma trimEnd_last :
  forall s r c, trimEnd s = r ++ [c] -> isWhiteSpace c = false.
Proof.
  intros s r c Heq. unfold trimEnd in Heq.
  apply (f_equal (@rev code_unit)) in Heq.
  rewrite rev_involutive, rev_app_distr in Heq. simpl in Heq.
  eapply trimStart_head. exact Heq.
Qed.

Lemma trim_head :
  forall s c r, trim s = c :: r -> isWhiteSpace c = false.
Proof.
  intros s c r Heq. unfold trim in Heq.
  destruct (trimEnd_decomp (trimStart s)) as (post & Hdecomp & _).
  rewrite Heq in Hdecomp. simpl in Hdecomp.
  eapply trimStart_head. exact Hdecomp.
Qed.

Lemma trim_last :
  forall s r c, trim s = r ++ [c] -> isWhiteSpace c = false.
Proof.
  intros s r c Heq. eapply trimEnd_last. exact Heq.
Qed.

Lemma trim_decomp :
  forall s, exists pre post,
    s = pre ++ trim s ++ post /\
    forallb isWhiteSpace pre = true /\ forallb isWhiteSpace post = true.
Proof.
  intros s. unfold trim.
  destruct (trimStart_decomp s) as (pre & Hs & Hpre).
  destruct (trimEnd_decomp (trimStart s)) as (post & Ht & Hpost).
  exists pre, post. repeat split; try assumption.
  rewrite <- Ht. exact Hs.
Qed.

Lemma trim_idempotent :
  forall s, trim (trim s) = trim s.
Proof.
  intros s. destruct (trim s) as [| c r] eqn:Htrim; [reflexivity | ].
  unfold trim at 1.
  assert (Hc : isWhiteSpace c = false) by (eapply trim_head; exact Htrim).
  rewrite (@trimStart_fixed c r Hc).
  unfold trimEnd.
  destruct (rev (c :: r)) as [| d r'] eqn:Hrev.
  - apply (f_equal (@rev code_unit)) in Hrev.
    rewrite rev_involutive in Hrev. discriminate.
  - assert (Hlast : c :: r = rev r' ++ [d]).
    { rewrite <- (rev_involutive (c :: r)), Hrev. reflexivity. }
    rewrite <- Htrim in Hlast.
    assert (Hd : isWhiteSpace d = false) by (eapply trim_last; exact Hlast).
    rewrite (@trimStart_fixed d r' Hd).
    rewrite <- Hrev. apply rev_involutive.
Qed.

Lemma jstring_eqb_eq :
  forall a b, jstring_eqb a b = true <-> a = b.
Proof.
  intros a b. unfold jstring_eqb.
  destruct (list_eq_dec N.eq_dec a b); split; intros H;
    try reflexivity; try assumption; try discriminate; contradiction.
Qed.

(** X10: the send button is disabled exactly when the send handler would
    call onSend not at all; a click on the enabled button and the Enter
    key without shift do what the send handler does; any other key, and
    Enter with shift, calls nothing and leaves the text as it is. *)
Theorem handlers_agree :
  forall loading message,
    (MessageInput.buttonDisabled loading message = true
     <-> MessageInput.onSend_calls (MessageInput.handleSend loading message)
         = []) /\
    MessageInput.handleClick loading message
    = MessageInput.handleSend loading message /\
    MessageInput.handleKeyDown loading message (lit "Enter") false
    = MessageInput.handleSend loading message /\
    (forall key shiftKey,
       key <> lit "Enter" \/ shiftKey = true ->
       MessageInput.handleKeyDown loading message key shiftKey
       = {| MessageInput.onSend_calls := [];
            MessageInput.message_after := message |}).
Proof.
  intros loading message.
  unfold MessageInput.handleClick, MessageInput.buttonDisabled,
    MessageInput.handleSend.
  split; [ | split; [ | split]].
  - destruct loading, (truthy (trim message)); simpl; split;
      intros H; try reflexivity; discriminate.
  - destruct loading, (truthy (trim message)); reflexivity.
  - reflexivity.
  - intros key shiftKey Hother. unfold MessageInput.handleKeyDown.
    destruct (jstring_eqb key (lit "Enter")) eqn:Hkey; simpl;
      [ | reflexivity].
    apply jstring_eqb_eq in Hkey.
    destruct Hother as [Hne | ->]; [contradiction | reflexivity].
Qed.

Lemma handlers_agree_witness :
  MessageInput.handleKeyDown false (lit "Hello") (lit "Enter") true
  = {| MessageInput.onSend_calls := [];
       MessageInput.message_after := lit "Hello" |}.
Proof.
  apply (proj2 (proj2 (proj2 (handlers_agree false (lit "Hello"))))).
  right. reflexivity.
Defined.

(** X11: the send handler either calls nothing and leaves the text of
    the input as it is, or calls onSend once and empties the input.  The
    text it sends is the typed text without the white space before and
    after it: it is not empty, neither starts nor ends with white space,
    and sending it once more sends it unchanged. *)
Theorem sent_text_is_trimmed :
  forall loading message,
    MessageInput.handleSend loading message
    = {| MessageInput.onSend_calls := [];
         MessageInput.message_after := message |} \/
    exists sent pre post,
      MessageInput.handleSend loading message
      = {| MessageInput.onSend_calls := [sent];
           MessageInput.message_after := [] |} /\
      loading = false /\
      sent <> [] /\
      message = pre ++ sent ++ post /\
      forallb isWhiteSpace pre = true /\
      forallb isWhiteSpace post = true /\
      (forall c r, sent = c :: r -> isWhiteSpace c = false) /\
      (forall r c, sent = r ++ [c] -> isWhiteSpace c = false) /\
      MessageInput.handleSend false sent
      = {| MessageInput.onSend_calls := [sent];
           MessageInput.message_after := [] |}.
Proof.
  intros loading message. unfold MessageInput.handleSend at 1 2.
  destruct (truthy (trim message)) eqn:Htruthy; simpl;
    [ | left; reflexivity].
  destruct loading; simpl; [left; reflexivity | right].
  destruct (trim_decomp message) as (pre & post & Hdecomp & Hpre & Hpost).
  exists (trim message), pre, post.
  repeat split; try assumption.
  - intros Hempty. rewrite Hempty in Htruthy. discriminate.
  - intros c r Heq. eapply trim_head. exact Heq.
  - intros r c Heq. eapply trim_last. exact Heq.
  - unfold MessageInput.handleSend.
    rewrite trim_idempotent, Htruthy. reflexivity.
Qed.

(* ================================================================== *)
(** ** components/ChatPage.tsx: the input during and after a turn *)
(* ================================================================== *)

Lemma turn_resets_loading :
  forall fetch t1 t2 state message,
    isLoading (turn fetch t1 t2 state message) = false.
Proof.
  intros fetch t1 t2 state message. unfold turn, sendMessage.
  destruct (Api.sendConversationMessage fetch
              (sendMessage_request state message)); reflexivity.
Qed.

Lemma nonblank_is_sent :
  forall typed,
    trim typed <> [] ->
    MessageInput.onSend_calls (MessageInput.handleClick false typed)
    = [trim typed] /\
    MessageInput.onSend_calls
      (MessageInput.handleKeyDown false typed (lit "Enter") false)
    = [trim typed].
Proof.
  intros typed Hfull.
  unfold MessageInput.handleKeyDown, MessageInput.handleClick,
    MessageInput.buttonDisabled, MessageInput.handleSend.
  destruct (trim typed) as [| c r]; [contradiction | ].
  split; reflexivity.
Qed.

(** X12: between the two dispatches of a turn the page sends nothing:
    the button is disabled and neither a click nor a key calls onSend,
    whatever is typed.  Once the turn is complete, with or without a
    response, a text that is not blank is sent again. *)
Theorem input_blocked_during_turn :
  (forall now state message typed key shiftKey,
     let pending := chatReducer now state (SEND_MESSAGE_START message) in
     MessageInput.buttonDisabled (isLoading pending) typed = true /\
     MessageInput.onSend_calls (ChatPage_click pending typed) = [] /\
     MessageInput.onSend_calls (ChatPage_keyDown pending typed key shiftKey)
     = []) /\
  (forall fetch t1 t2 state message typed,
     trim typed <> [] ->
     let next := turn fetch t1 t2 state message in
     MessageInput.onSend_calls (ChatPage_click next typed) = [trim typed] /\
     MessageInput.onSend_calls
       (ChatPage_keyDown next typed (lit "Enter") false) = [trim typed]).
Proof.
  split.
  - intros now state message typed key shiftKey pending; subst pending.
    unfold ChatPage_click, ChatPage_keyDown; simpl.
    repeat split.
    unfold MessageInput.handleKeyDown, MessageInput.handleSend.
    rewrite orb_true_r.
    destruct (jstring_eqb key (lit "Enter") && negb shiftKey); reflexivity.
  - intros fetch t1 t2 state message typed Hfull next.
    subst next. unfold ChatPage_click, ChatPage_keyDown.
    rewrite turn_resets_loading.
    apply nonblank_is_sent. exact Hfull.
Qed.

Lemma input_blocked_during_turn_witness :
  MessageInput.onSend_calls
    (ChatPage_click (turn serverDown clock1 clock2 initialState (lit "Hello"))
       (lit " again "))
  = [lit "again"] /\
  MessageInput.onSend_calls
    (ChatPage_keyDown (turn serverDown clock1 clock2 initialState (lit "Hello"))
       (lit " again ") (lit "Enter") false)
  = [lit "again"].
Proof.
  apply (proj2 input_blocked_during_turn
           serverDown clock1 clock2 initialState (lit "Hello") (lit " again ")).
  vm_compute. discriminate.
Defined.

(* ================================================================== *)
(** ** components/CharacterImageDisplay.tsx: the image card *)
(* ================================================================== *)

Lemma startsWith_app :
  forall p a b, startsWith a p = true -> startsWith (a ++ b) p = true.
Proof.
  induction p as [| x p' IH]; intros a b; simpl.
  - intros _. destruct (a ++ b); reflexivity.
  - destruct a as [| y a']; simpl; [discriminate | ].
    intros Hprefix. apply andb_true_iff in Hprefix.
    destruct Hprefix as [Hhead Htail].
    rewrite Hhead, (IH _ b Htail). reflexivity.
Qed.

(** X13: when the base URL starts with "http", as the default
    "http://localhost:8000" does, the URL resolveImageUrl returns starts
    with "http" for every image path, ends with the image path, which it
    leaves alone or prefixes with the base URL, and resolving it once
    more changes nothing. *)
Theorem resolveImageUrl_absolute :
  startsWith (CharacterImageDisplay.API_BASE_URL undefined) (lit "http")
  = true /\
  forall env imagePath,
    startsWith (CharacterImageDisplay.API_BASE_URL env) (lit "http") = true ->
    let resolved := CharacterImageDisplay.resolveImageUrl env imagePath in
    startsWith resolved (lit "http") = true /\
    (resolved = imagePath \/
     resolved = CharacterImageDisplay.API_BASE_URL env ++ imagePath) /\
    CharacterImageDisplay.resolveImageUrl env resolved = resolved.
Proof.
  split; [reflexivity | ].
  intros env imagePath Hbase resolved; subst resolved.
  destruct (startsWith imagePath (lit "http")) eqn:Hpath.
  - assert (Hresolve :
      CharacterImageDisplay.resolveImageUrl env imagePath = imagePath).
    { unfold CharacterImageDisplay.resolveImageUrl. rewrite Hpath.
      reflexivity. }
    rewrite !Hresolve.
    split; [exact Hpath | split; [left; reflexivity | reflexivity]].
  - assert (Hresolve :
      CharacterImageDisplay.resolveImageUrl env imagePath
      = CharacterImageDisplay.API_BASE_URL env ++ imagePath).
    { unfold CharacterImageDisplay.resolveImageUrl. rewrite Hpath.
      reflexivity. }
    assert (Hresolved :
      startsWith (CharacterImageDisplay.API_BASE_URL env ++ imagePath)
        (lit "http") = true)
      by (apply startsWith_app; exact Hbase).
    rewrite !Hresolve.
    split; [exact Hresolved | split; [right; reflexivity | ]].
    unfold CharacterImageDisplay.resolveImageUrl. rewrite Hresolved.
    reflexivity.
Qed.

Lemma resolveImageUrl_absolute_witness :
  startsWith
    (CharacterImageDisplay.resolveImageUrl undefined
       (lit "/images/happy_cafe.png")) (lit "http") = true /\
  (CharacterImageDisplay.resolveImageUrl undefined
     (lit "/images/happy_cafe.png") = lit "/images/happy_cafe.png" \/
   CharacterImageDisplay.resolveImageUrl undefined
     (lit "/images/happy_cafe.png")
   = CharacterImageDisplay.API_BASE_URL undefined
     ++ lit "/images/happy_cafe.png") /\
  CharacterImageDisplay.resolveImageUrl undefined
    (CharacterImageDisplay.resolveImageUrl undefined
       (lit "/images/happy_cafe.png"))
  = CharacterImageDisplay.resolveImageUrl undefined
      (lit "/images/happy_cafe.png").
Proof.
  apply (proj2 resolveImageUrl_absolute undefined
           (lit "/images/happy_cafe.png")).
  reflexivity.
Defined.

(** X14: each of the two components of the file shows exactly one of
    skeleton, image and placeholder; both show the placeholder exactly
    when no image is being generated and the URL is empty; and the two
    show the same kind of view whenever no image is being generated or
    the URL is empty. *)
Theorem image_card_shows_one :
  forall env imageUrl isGenerating,
    let first :=
      shows (CharacterImageDisplay.CharacterImageDisplay
               env imageUrl isGenerating) in
    let second :=
      shows (CharacterImageDisplay.CharacterImageDisplay_second
               imageUrl isGenerating) in
    (first = (true, false, false) \/ first = (false, true, false) \/
     first = (false, false, true)) /\
    (second = (true, false, false) \/ second = (false, true, false) \/
     second = (false, false, true)) /\
    (first = (false, false, true)
     <-> isGenerating = false /\ imageUrl = []) /\
    (second = (false, false, true)
     <-> isGenerating = false /\ imageUrl = []) /\
    (isGenerating = false \/ imageUrl = [] -> first = second).
Proof.
  intros env imageUrl isGenerating first second; subst first second.
  unfold shows, CharacterImageDisplay.CharacterImageDisplay,
    CharacterImageDisplay.CharacterImageDisplay_second.
  destruct isGenerating, imageUrl as [| c r]; simpl;
    repeat match goal with
           | |- _ /\ _ => split
           | |- _ <-> _ => split
           end;
    try (intros [H1 H2]; discriminate);
    try (intros [H | H]; discriminate);
    try (intros H; discriminate);
    auto.
Qed.

Lemma image_card_shows_one_witness :
  shows (CharacterImageDisplay.CharacterImageDisplay
           undefined (lit "http://cdn/x.png") false)
  = shows (CharacterImageDisplay.CharacterImageDisplay_second
             (lit "http://cdn/x.png") false).
Proof.
  apply (proj2 (proj2 (proj2 (proj2
           (image_card_shows_one undefined (lit "http://cdn/x.png") false))))).
  left. reflexivity.
Defined.

(* ================================================================== *)
(** ** components/ChatPage.tsx: the image card during and after a turn *)
(* ================================================================== *)

Lemma turn_resets_generating :
  forall fetch t1 t2 state message,
    isGeneratingImage (turn fetch t1 t2 state message) = false.
Proof.
  intros fetch t1 t2 state message. unfold turn, sendMessage.
  destruct (Api.sendConversationMessage fetch
              (sendMessage_request state message)); reflexivity.
Qed.

Lemma turn_image :
  forall fetch t1 t2 state message,
    currentImageUrl (turn fetch t1 t2 state message)
    = match Api.sendConversationMessage fetch
              (sendMessage_request state message) with
      | Api.Returned body =>
          coalesce (ConversationResponse.image_url body)
                   (currentImageUrl state)
      | Api.Thrown _ => currentImageUrl state
      end.
Proof.
  intros fetch t1 t2 state message. unfold turn, sendMessage.
  destruct (Api.sendConversationMessage fetch
              (sendMessage_request state message)); reflexivity.
Qed.

(** X15: once a turn is complete the page shows no skeleton.  After a
    turn that failed, or whose response carries no image_url, a page that
    was not generating before the turn shows the image card it showed
    before; after a response with a non-empty image_url it shows the
    image at the resolved URL.  From a state without an image the page
    shows the skeleton between the two dispatches of a turn. *)
Theorem image_card_over_a_turn :
  forall env fetch t1 t2 state message,
    let outcome :=
      Api.sendConversationMessage fetch (sendMessage_request state message) in
    let next := turn fetch t1 t2 state message in
    CharacterImageDisplay.has_skeleton (ChatPage_image env next) = false /\
    (isGeneratingImage state = false ->
     (exists e, outcome = Api.Thrown e) \/
     (exists body, outcome = Api.Returned body /\
                   ConversationResponse.image_url body = undefined) ->
     ChatPage_image env next = ChatPage_image env state) /\
    (forall body url,
       outcome = Api.Returned body ->
       ConversationResponse.image_url body = defined url ->
       url <> [] ->
       ChatPage_image env next
       = CharacterImageDisplay.Card
           [ CharacterImageDisplay.CardContent
               [ CharacterImageDisplay.Div
                   [ CharacterImageDisplay.Img
                       (CharacterImageDisplay.resolveImageUrl env url)
                       (lit "Character") ] ] ]) /\
    (currentImageUrl state = [] ->
     CharacterImageDisplay.has_skeleton
       (ChatPage_image env
          (chatReducer t1 state (SEND_MESSAGE_START message))) = true).
Proof.
  intros env fetch t1 t2 state message outcome next; subst outcome next.
  unfold ChatPage_image.
  rewrite turn_resets_generating, turn_image.
  split; [ | split; [ | split]].
  - unfold CharacterImageDisplay.CharacterImageDisplay. simpl.
    match goal with
    | |- context [truthy ?u] => destruct (truthy u)
    end; reflexivity.
  - intros Hidle [(e & ->) | (body & -> & Hnone)].
    + rewrite Hidle. reflexivity.
    + rewrite Hnone, Hidle. reflexivity.
  - intros body url -> Hurl Hfull. rewrite Hurl. simpl.
    destruct url as [| c r]; [contradiction | reflexivity].
  - intros Hnone. simpl. rewrite Hnone. reflexivity.
Qed.

Lemma image_card_over_a_turn_witness :
  ChatPage_image undefined
    (turn serverDown clock1 clock2 initialState (lit "Hello"))
  = ChatPage_image undefined initialState /\
  ChatPage_image undefined
    (turn serverOk clock1 clock2 initialState (lit "Hello"))
  = CharacterImageDisplay.Card
      [ CharacterImageDisplay.CardContent
          [ CharacterImageDisplay.Div
              [ CharacterImageDisplay.Img
                  (CharacterImageDisplay.resolveImageUrl undefined
                     (lit "/images/happy_cafe.png"))
                  (lit "Character") ] ] ] /\
  CharacterImageDisplay.has_skeleton
    (ChatPage_image undefined
       (chatReducer clock1 initialState (SEND_MESSAGE_START (lit "Hello"))))
  = true.
Proof.
  split; [ | split].
  - apply (proj1 (proj2 (image_card_over_a_turn undefined serverDown
                           clock1 clock2 initialState (lit "Hello")))).
    + reflexivity.
    + left. exists Api.FetchError. reflexivity.
  - apply (proj1 (proj2 (proj2 (image_card_over_a_turn undefined serverOk
                                  clock1 clock2 initialState (lit "Hello"))))
             mockResponse (lit "/images/happy_cafe.png")).
    + reflexivity.
    + reflexivity.
    + vm_compute. discriminate.
  - apply (proj2 (proj2 (proj2 (image_card_over_a_turn undefined serverOk
                                  clock1 clock2 initialState (lit "Hello"))))).
    reflexivity.
Defined.

(* ================================================================== *)
(** ** Further facts on turns and on the store of objects *)
(* ================================================================== *)

Lemma run_turn_counts :
  forall state i,
    List.length
      (filter (fun m => negb (isAgentMessage m)) (messages (run_turn state i)))
    = S (List.length
           (filter (fun m => negb (isAgentMessage m)) (messages state))) /\
    (List.length (filter isAgentMessage (messages (run_turn state i)))
     <= S (List.length (filter isAgentMessage (messages state))))%nat.
Proof.
  intros state i. unfold run_turn, turn, sendMessage.
  destruct (Api.sendConversationMessage (ti_fetch i)
              (sendMessage_request state (ti_message i))); simpl;
    rewrite ?filter_app, ?length_app; simpl; lia.
Qed.

(** X16: after any number of complete turns the log holds one user
    message more per turn than before, and at most one agent message more
    per turn; from initialState, n turns give exactly n user messages and
    at most n agent messages. *)
Theorem turns_count_messages :
  forall inputs state,
    List.length
      (filter (fun m => negb (isAgentMessage m))
         (messages (run_turns state inputs)))
    = (List.length
         (filter (fun m => negb (isAgentMessage m)) (messages state))
       + List.length inputs)%nat /\
    (List.length (filter isAgentMessage (messages (run_turns state inputs)))
     <= List.length (filter isAgentMessage (messages state))
        + List.length inputs)%nat.
Proof.
  induction inputs as [| i rest IH]; intros state; simpl.
  - lia.
  - destruct (IH (run_turn state i)) as [Husers Hagents].
    destruct (run_turn_counts state i) as [Hu Ha].
    lia.
Qed.

(** X17: for each of the four declared actions the reducer returns an
    object that was not in the store before the call; for an action of
    another type it returns the very state object it was given and
    leaves the store as it is. *)
Theorem reducer_returns_new_object :
  forall now initial h state action h' r',
    Heap.chatReducer now initial h state action = Some (h', r') ->
    match action with
    | OTHER_ACTION => r' = state /\ h' = h
    | _ => nth_error h r' = None /\
           exists o, Heap.read_object h' r' = Some o
    end.
Proof.
  intros now initial h state action h' r' Hcall.
  destruct action; simpl in Hcall;
    repeat match type of Hcall with
           | context [match ?x with _ => _ end] => destruct x; try discriminate
           end;
    unfold Heap.alloc in Hcall; inversion Hcall; subst; clear Hcall.
  - split.
    + apply nth_error_None. rewrite length_app. simpl. lia.
    + eexists. apply read_object_last.
  - split.
    + apply nth_error_None. rewrite length_app. simpl. lia.
    + eexists. apply read_object_last.
  - split.
    + apply nth_error_None. lia.
    + eexists. apply read_object_last.
  - split.
    + apply nth_error_None. lia.
    + eexists. apply read_object_last.
  - split; reflexivity.
Qed.

Lemma reducer_returns_new_object_witness :
  nth_error initialHeap 2%nat = None /\
  exists o,
    Heap.read_object
      (initialHeap ++
       [ Heap.ObjectCell
           {| Heap.messagesRef := 0%nat;
              Heap.o_currentImageUrl := [];
              Heap.o_isLoading := false;
              Heap.o_isGeneratingImage := false;
              Heap.o_affinityLevel := 0;
              Heap.o_sessionId := null |} ]) 2%nat = Some o.
Proof.
  apply (reducer_returns_new_object clock1 1%nat initialHeap 1%nat
           SEND_MESSAGE_ERROR).
  reflexivity.
Defined.
